(** * Wordibble / VerseWord puzzle engine

    A shallow embedding of the puzzle engine of [components/Game.tsx], of the
    flip-animation variant of that component ([Module Variant]) and of
    [lib/daily.ts], together with the properties of the engine that the design
    document states.

    JavaScript values are modelled as follows.
    - A string is a [string]; [s[i]] is [charAt s i], [s.length] is [strlen s].
      Characters are bytes: the game's letters are A-Z.
    - [Record<number, string>] is a [gmap nat string]; [Object.entries] lists
      it by ascending key ([entries]).
    - [Set<number>] is a [gset nat].
    - A number is a [Z] (or a [nat] where it is an index or a length).
    - The helpers of [lib/gameLogic], [lib/config] and [lib/stats] are not part
      of the sources at hand; the engine takes them as parameters
      ([GameLogicLib], [GameConfig]), and [Module GameLogic] gives the
      evaluator that the design document describes. *)

From Stdlib Require Import ZArith Ascii String DecimalString DecimalNat Lia.
From stdpp Require Import base option list gmap gmultiset sets strings sorting.

Set Warnings "-register-all".

Open Scope string_scope.
Open Scope nat_scope.

(** ** Strings *)

Definition chars (s : string) : list ascii := list_ascii_of_string s.
Definition str (l : list ascii) : string := string_of_list_ascii l.

(** [s.length] *)
Definition strlen (s : string) : nat := length (chars s).

(** [s[i]] as a character; [None] is JavaScript's [undefined]. *)
Definition charAt (s : string) (i : nat) : option ascii := chars s !! i.

(** A character as a one-letter string. *)
Definition letter (c : ascii) : string := String c EmptyString.

(** [cells.join('')] *)
Definition join (cells : list string) : string := String.concat "" cells.

(** A string is truthy unless it is empty. *)
Definition truthy (s : string) : bool :=
  match s with EmptyString => false | _ => true end.

Definition upperChar (c : ascii) : ascii :=
  let n := nat_of_ascii c in
  if (97 <=? n) && (n <=? 122) then ascii_of_nat (n - 32) else c.

(** [s.toUpperCase()] on the ASCII letters. *)
Definition toUpperCase (s : string) : string := str (upperChar <$> chars s).

(** ** Letter states and game status *)

Inductive LetterState := correct | present | absent.

Inductive GameStatus := playing | won | lost.

Global Instance LetterState_eq_dec : EqDecision LetterState.
Proof. solve_decision. Defined.

Global Instance GameStatus_eq_dec : EqDecision GameStatus.
Proof. solve_decision. Defined.

(** ** Parameters of the engine *)

(** [lib/gameLogic]: the evaluator and the completeness check that
    [handleSubmit] calls.  The evaluator gives a status per guessed letter and
    none beyond the end of the guess, and only a guess of the puzzle's length
    is complete (design document, 4.1 and 4.3). *)
Class GameLogicLib := {
  evaluateGuess : string → string → list LetterState;
  validateGuess : string → nat → bool;
  evaluateGuess_bound guess secret :
    length (evaluateGuess guess secret) ≤ strlen guess;
  validateGuess_length guess n :
    validateGuess guess n = true → strlen guess = n;
}.

(** ** GuessEvaluator *)

Module GameLogic.

Inductive EvalError := LengthMismatch.

(** The letter-count pool: a multiset of letters. *)
Definition seedPool (secret : list ascii) : gmultiset ascii :=
  list_to_set_disj secret.

(** Pass 1: [correct] where the letters match at the same position; each
    match takes one copy of the letter out of the pool.  [None] marks a
    position left for pass 2. *)
Fixpoint markCorrect (guess secret : list ascii) (pool : gmultiset ascii)
  : list (option LetterState) * gmultiset ascii :=
  match guess, secret with
  | g :: guess', s :: secret' =>
      if decide (g = s)
      then let '(marks, pool') := markCorrect guess' secret' (pool ∖ {[+ g +]}) in
           (Some correct :: marks, pool')
      else let '(marks, pool') := markCorrect guess' secret' pool in
           (None :: marks, pool')
  | _, _ => ([], pool)
  end.

(** Pass 2: a remaining position is [present] if its letter still has a
    copy in the pool (which it takes), and [absent] otherwise. *)
Fixpoint markPresent (guess : list ascii) (marks : list (option LetterState))
  (pool : gmultiset ascii) : list LetterState :=
  match guess, marks with
  | g :: guess', Some st :: marks' => st :: markPresent guess' marks' pool
  | g :: guess', None :: marks' =>
      if decide (0 < multiplicity g pool)
      then present :: markPresent guess' marks' (pool ∖ {[+ g +]})
      else absent :: markPresent guess' marks' pool
  | _, _ => []
  end.

Definition score (guess secret : list ascii) : list LetterState :=
  let '(marks, pool) := markCorrect guess secret (seedPool secret) in
  markPresent guess marks pool.

(** Modelled from the spec: lib/gameLogic.ts (evaluateGuess) is missing from
    the sources.  The design document describes it as a pure,
    case-normalized, two-pass scoring over a letter-count pool seeded from
    the secret, failing with LengthMismatch when the lengths differ. *)
Definition evaluate (guess secret : string) : EvalError + list LetterState :=
  let g := chars (toUpperCase guess) in
  let s := chars (toUpperCase secret) in
  if decide (length g = length s) then inr (score g s) else inl LengthMismatch.

(** The evaluator as [handleSubmit] calls it: an array of statuses (empty
    on a length mismatch, which the callers exclude beforehand). *)
Definition evaluateGuess (guess secret : string) : list LetterState :=
  match evaluate guess secret with
  | inr result => result
  | inl _ => []
  end.

(** Modelled from the spec: lib/gameLogic.ts (validateGuess) is missing from
    the sources.  A guess is complete when no position is empty, that is,
    when it has the puzzle's length. *)
Definition validateGuess (guess : string) (wordLength : nat) : bool :=
  bool_decide (strlen guess = wordLength).

(** Number of positions of [guess] that hold letter [c] and were given
    status [st]. *)
Fixpoint marked (st : LetterState) (c : ascii) (guess : list ascii)
  (result : list LetterState) : nat :=
  match guess, result with
  | g :: guess', r :: result' =>
      (if decide (g = c ∧ r = st) then 1 else 0) + marked st c guess' result'
  | _, _ => 0
  end.

(** Positions of [guess] holding [c] that pass 1 marked [correct]. *)
Fixpoint hits (c : ascii) (guess : list ascii) (marks : list (option LetterState)) : nat :=
  match guess, marks with
  | g :: guess', m :: marks' =>
      (if decide (g = c ∧ m = Some correct) then 1 else 0) + hits c guess' marks'
  | _, _ => 0
  end.

(** Multiplicity of letter [c] in a word. *)
Definition occurrences (c : ascii) (word : list ascii) : nat :=
  length (filter (λ x, x = c) word).

End GameLogic.

(** The evaluator that the design document describes fits the interface that
    [handleSubmit] expects. *)
Global Program Instance specGameLogic : GameLogicLib := {|
  evaluateGuess := GameLogic.evaluateGuess;
  validateGuess := GameLogic.validateGuess;
|}.
Next Obligation.
  intros guess secret. unfold GameLogic.evaluateGuess, GameLogic.evaluate.
  case_decide as Hlen; simpl; [|lia].
  assert (∀ g marks pool, length (GameLogic.markPresent g marks pool) ≤ length g) as Hle.
  { induction g as [|x g IH]; intros [|[m|] marks] pool; simpl; try lia.
    - specialize (IH marks pool). lia.
    - case_decide; simpl; [specialize (IH marks (pool ∖ {[+ x +]})) | specialize (IH marks pool)];
        lia. }
  unfold GameLogic.score. destruct (GameLogic.markCorrect _ _ _) as [marks pool].
  etrans; [apply Hle|].
  unfold strlen, toUpperCase, str, chars.
  by rewrite list_ascii_of_string_of_list_ascii, length_fmap.
Qed.
Next Obligation.
  intros guess n H. unfold GameLogic.validateGuess in H. by apply bool_decide_eq_true in H.
Qed.

(** [lib/config]: [GAME_CONFIG] and [ANIMATION_CONFIG]. *)
Class GameConfig := {
  WORD_LENGTH : nat;
  MAX_GUESSES : Z;
  REVEAL_VOWELS : bool;
  REVEAL_VOWEL_COUNT : Z;
  REVEAL_CLUE : bool;
  RANDOM_PUZZLE : bool;
  LOCK_GREEN_MATCHED_LETTERS : bool;
  TILE_FLIP_DURATION : nat;
}.

(** ** Data model ([lib/types], [GameSettings], the router query) *)

Record GameState := {
  wordLength : nat;
  secretWord : string;
  clue : option string;
  attempts : list string;
  (** [Record<number, string | null>]; the engine only ever stores letters. *)
  lockedLetters : gmap nat string;
  gameStatus : GameStatus;
  attemptIndex : Z;
  revealedLetters : gset nat;
  letterRevealsRemaining : Z;
}.

(** [lockGreenMatchedLetters] exists in the flip-animation variant only. *)
Record GameSettings := {
  settings_wordLength : nat;
  maxGuesses : Z;
  revealVowels : bool;
  revealVowelCount : Z;
  revealClue : bool;
  randomPuzzle : bool;
  lockGreenMatchedLetters : bool;
}.

Record RouterQuery := {
  query_date : option string;
  query_archive : option string;
}.

(** [router.query.date && router.query.archive === 'true'], as a condition. *)
Definition isArchivePuzzle (q : RouterQuery) : bool :=
  match query_date q with
  | Some d => truthy d && bool_decide (query_archive q = Some "true")
  | None => false
  end.

(** The argument of [recordResult]. *)
Record ResultMode := {
  mode_revealVowels : bool;
  mode_vowelCount : Z;
  mode_revealClue : bool;
  mode_randomPuzzle : bool;
}.

Record GameResult := {
  dateISO : string;
  result_wordLength : nat;
  result_won : bool;
  guesses : Z;
  solution : string;
  mode : ResultMode;
}.

(** The value of one [Math.random()] call: [random_num / random_den], in [0, 1). *)
Record Random := {
  random_num : nat;
  random_den : nat;
  random_unit : random_num < random_den;
}.

(** [Math.floor(Math.random() * n)] *)
Definition floorRandomTimes (u : Random) (n : nat) : nat :=
  (random_num u * n) / random_den u.

(** The state of a fresh component ([useState] in [Game]). *)
Definition initialGameState {config : GameConfig} : GameState := {|
  wordLength := WORD_LENGTH;
  secretWord := "";
  clue := None;
  attempts := [];
  lockedLetters := ∅;
  gameStatus := playing;
  attemptIndex := 0;
  revealedLetters := ∅;
  letterRevealsRemaining := 1;
|}.

(** ** Helpers shared by both variants of the component *)

(** [Object.entries(lockedLetters)]: integer keys come in ascending order. *)
Definition key_le (a b : nat * string) : Prop := a.1 ≤ b.1.

Global Instance key_le_dec : RelDecision key_le.
Proof. intros a b. unfold key_le. apply _. Defined.

Definition entries (locked : gmap nat string) : list (nat * string) :=
  merge_sort key_le (map_to_list locked).

(** [!lockedLetters[i]] is false exactly when position [i] holds a letter. *)
Definition isLocked (locked : gmap nat string) (i : nat) : bool :=
  match locked !! i with Some l => truthy l | None => false end.

(** A position the lifeline may reveal: neither locked nor revealed yet. *)
Definition eligible (gs : GameState) (p : nat) : Prop :=
  p < wordLength gs ∧ isLocked (lockedLetters gs) p = false ∧ p ∉ revealedLetters gs.

(** The state after a reveal of position [p]. *)
Definition revealed (gs : GameState) (p : nat) : GameState :=
  {| wordLength := wordLength gs;
     secretWord := secretWord gs;
     clue := clue gs;
     attempts := attempts gs;
     lockedLetters := lockedLetters gs;
     gameStatus := gameStatus gs;
     attemptIndex := attemptIndex gs;
     revealedLetters := revealedLetters gs ∪ {[ p ]};
     letterRevealsRemaining := letterRevealsRemaining gs - 1 |}.

(** [gameState.lockedLetters[i] ?? currentGuess[i] ?? ''] *)
Definition cell (locked : gmap nat string) (currentGuess : list string) (i : nat) : string :=
  match locked !! i with
  | Some l => l
  | None => default "" (currentGuess !! i)
  end.


(** Every cell of a typed row holds at most one character. *)
Definition typedCells (row : list string) : Prop :=
  Forall (λ s, strlen s ≤ 1) row.



(** The reveal budget in [gs], compared with the state [gs0] the game started
    from: it did not grow, it did not fall below zero, and a position was
    added to the revealed ones for every unit spent. *)
Definition budgetKept (gs0 gs : GameState) : Prop :=
  (letterRevealsRemaining gs ≤ letterRevealsRemaining gs0)%Z
  ∧ ((0 ≤ letterRevealsRemaining gs0)%Z → (0 ≤ letterRevealsRemaining gs)%Z)
  ∧ (Z.of_nat (size (revealedLetters gs)) + letterRevealsRemaining gs
     = Z.of_nat (size (revealedLetters gs0)) + letterRevealsRemaining gs0)%Z.

(** [Array.from({ length: wordLength }, (_, i) => ...).join('')] *)
Definition completeGuess (gs : GameState) (currentGuess : list string) : string :=
  join (cell (lockedLetters gs) currentGuess <$> seq 0 (wordLength gs)).

(** [next[i] = v] on an array: an index past the end extends the array.  The
    holes this leaves read as [undefined], which every reader of the guess row
    treats like the empty string; they are modelled as empty strings. *)
Definition arraySet (next : list string) (i : nat) (v : string) : list string :=
  if decide (i < length next) then <[i := v]> next
  else (next ++ replicate (i - length next) "" ++ [v])%list.

(** The guess row reduced to the locked letters:
    [new Array(wordLength).fill('')], then [next[i] = letter] for every entry
    of the locked letters with a truthy letter. *)
Definition lockedRow (n : nat) (locked : gmap nat string) : list string :=
  foldl (λ next e, if truthy e.2 then arraySet next e.1 e.2 else next)
        (replicate n "") (entries locked).

(** The body of the loop that builds [newLocked]:
    [if (evaluation[i] === 'correct') newLocked[i] = completeGuess[i]].
    [completeGuess[i]] is defined there, see [evaluateGuess_bound]. *)
Definition lockStep (guess : string) (evaluation : list LetterState)
  (newLocked : gmap nat string) (i : nat) : gmap nat string :=
  if decide (evaluation !! i = Some correct)
  then match charAt guess i with
       | Some c => <[i := letter c]> newLocked
       | None => newLocked
       end
  else newLocked.

(** [newLocked]: a copy of the locked letters, run through the loop
    [for (let i = 0; i < evaluation.length; i++)]. *)
Definition lockCorrect (guess : string) (evaluation : list LetterState)
  (locked : gmap nat string) : gmap nat string :=
  foldl (lockStep guess evaluation) locked (seq 0 (length evaluation)).

(** [evaluation.every((s) => s === 'correct')] *)
Definition allCorrect (evaluation : list LetterState) : bool :=
  forallb (λ s, bool_decide (s = correct)) evaluation.

(** *** KeyboardStateAggregator ([keyboardLetterStates]) *)

(** One step of the fold over an attempt: the [if / else if] chain. *)
Definition upgrade (states : gmap string LetterState) (L : string) (s : LetterState)
  : gmap string LetterState :=
  match s with
  | correct => if decide (states !! L ≠ Some correct) then <[L := correct]> states else states
  | present => if decide (states !! L ≠ Some correct) then <[L := present]> states else states
  | absent => if decide (states !! L = None) then <[L := absent]> states else states
  end.

(** Locked letters count as [correct]. *)
Definition seedLocked (locked : gmap nat string) (states : gmap string LetterState)
  : gmap string LetterState :=
  foldl (λ st e, if truthy e.2 then <[e.2 := correct]> st else st) states (entries locked).

(** So do the secret's letters at the positions the lifeline revealed.
    [Array.from] lists a [Set] in insertion order, which a [gset] does not
    keep; every step writes [correct], so the order is immaterial. *)
Definition seedRevealed (secret : string) (revealed : gset nat)
  (states : gmap string LetterState) : gmap string LetterState :=
  foldl (λ st index,
           match charAt secret index with
           | Some c => <[letter c := correct]> st
           | None => st
           end)
        states (elements revealed).

(** One attempt of the history. *)
Definition foldAttempt {logic : GameLogicLib} (secret : string)
  (states : gmap string LetterState) (attempt : string) : gmap string LetterState :=
  let evaln := evaluateGuess attempt secret in
  foldl (λ st i,
           match charAt attempt i, evaln !! i with
           | Some L, Some s => upgrade st (letter L) s
           | _, _ => st
           end)
        states (seq 0 (strlen attempt)).

Definition keyboardLetterStates {logic : GameLogicLib} (gs : GameState) : gmap string LetterState :=
  foldl (foldAttempt (secretWord gs))
        (seedRevealed (secretWord gs) (revealedLetters gs)
           (seedLocked (lockedLetters gs) ∅))
        (attempts gs).

(** The status a key has after a step brings it [s]: the higher of the two. *)
Definition joinStatus (old : option LetterState) (s : LetterState) : LetterState :=
  match s, old with
  | correct, _ => correct
  | present, Some correct => correct
  | present, _ => present
  | absent, Some o => o
  | absent, None => absent
  end.

(** The three kinds of fold step, to fold them in any order. *)
Inductive KeyboardStep := SeedLocked | SeedRevealed | FoldAttempt (attempt : string).

Definition keyboardStep {logic : GameLogicLib} (gs : GameState)
  (states : gmap string LetterState) (k : KeyboardStep) : gmap string LetterState :=
  match k with
  | SeedLocked => seedLocked (lockedLetters gs) states
  | SeedRevealed => seedRevealed (secretWord gs) (revealedLetters gs) states
  | FoldAttempt attempt => foldAttempt (secretWord gs) states attempt
  end.

(** A single write of status [w.2] to key [w.1]. *)
Definition write (states : gmap string LetterState) (w : string * LetterState)
  : gmap string LetterState :=
  upgrade states w.1 w.2.

(** The writes of a fold step: the keys it touches, each with the status it
    brings. *)
Definition lockedWrites (locked : gmap nat string) : list (string * LetterState) :=
  omap (λ e, if truthy e.2 then Some (e.2, correct) else None) (entries locked).

Definition revealedWrites (secret : string) (revealed : gset nat)
  : list (string * LetterState) :=
  omap (λ index, (λ c, (letter c, correct)) <$> charAt secret index) (elements revealed).

Definition attemptWrites {logic : GameLogicLib} (secret attempt : string)
  : list (string * LetterState) :=
  omap (λ i, match charAt attempt i, evaluateGuess attempt secret !! i with
             | Some L, Some s => Some (letter L, s)
             | _, _ => None
             end)
       (seq 0 (strlen attempt)).

Definition stepWrites {logic : GameLogicLib} (gs : GameState) (k : KeyboardStep)
  : list (string * LetterState) :=
  match k with
  | SeedLocked => lockedWrites (lockedLetters gs)
  | SeedRevealed => revealedWrites (secretWord gs) (revealedLetters gs)
  | FoldAttempt attempt => attemptWrites (secretWord gs) attempt
  end.

(** Precedence of the statuses of a key: none < absent < present < correct. *)
Definition rank (s : option LetterState) : nat :=
  match s with
  | None => 0
  | Some absent => 1
  | Some present => 2
  | Some correct => 3
  end.

(** ** JavaScript values, exceptions and JSON

    The snapshot read back from storage is untyped.  [VSet items] stands for
    [new Set(items)].  An object lists its properties in enumeration order;
    numbers are integers. *)

Inductive jsval :=
| VUndefined
| VNull
| VBool (b : bool)
| VNum (n : Z)
| VStr (s : string)
| VArr (items : list jsval)
| VObj (fields : list (string * jsval))
| VSet (items : list jsval).

Inductive JsError :=
| SyntaxError
| TypeError
| RangeError
| Error (message : string).

(** How a computation ends: with a value, or with a thrown exception (a
    rejected promise, for an [async] function). *)
Inductive Completion (A : Type) :=
| Normal (a : A)
| Throw (e : JsError).
Arguments Normal {A} a.
Arguments Throw {A} e.

(** What an effect does to the outside, in order. *)
Inductive Action :=
| SetGameState (v : jsval)
| SetCurrentGuess (v : jsval)
| MarkRestored                      (* hasRestoredFromStorage.current = true *)
| SetItem (key : string) (v : jsval) (* localStorage.setItem(key, JSON.stringify(v)) *)
| RemoveItem (key : string)
| ConsoleError (message : string).

(** A block of statements: the actions done so far, and how it ended. *)
Definition Block (A : Type) : Type := list Action * Completion A.

Global Instance Block_ret : MRet Block := λ A a, ([], Normal a).

Global Instance Block_bind : MBind Block := λ A B k m,
  match m.2 with
  | Normal a => (m.1 ++ (k a).1, (k a).2)%list
  | Throw e => (m.1, Throw e)
  end.

Definition act (a : Action) : Block unit := ([a], Normal tt).
Definition throw {A} (e : JsError) : Block A := ([], Throw e).
Definition lift {A} (c : Completion A) : Block A := ([], c).

(** [try { body } catch (e) { handler(e) }] *)
Definition tryCatch (body : Block unit) (handler : JsError → Block unit) : Block unit :=
  match body.2 with
  | Normal _ => body
  | Throw e => (body.1 ++ (handler e).1, (handler e).2)%list
  end.

(** Truthiness. *)
Definition jsTruthy (v : jsval) : bool :=
  match v with
  | VUndefined | VNull => false
  | VBool b => b
  | VNum n => negb (n =? 0)%Z
  | VStr s => truthy s
  | VArr _ | VObj _ | VSet _ => true
  end.

(** Decimal numerals: [String(n)] for an index. *)
Definition decimal (n : nat) : string := NilZero.string_of_uint (Nat.to_uint n).

Definition decimalZ (k : Z) : string :=
  if (k <? 0)%Z then "-" ++ decimal (Z.to_nat (- k)) else decimal (Z.to_nat k).

Fixpoint lookupField (fields : list (string * jsval)) (key : string) : option jsval :=
  match fields with
  | [] => None
  | (k, v) :: rest => if decide (k = key) then Some v else lookupField rest key
  end.

(** [v.key] for a key that is not built in: reading a property of [null] or
    [undefined] throws, and a property that does not exist is [undefined]. *)
Definition getProp (v : jsval) (key : string) : Completion jsval :=
  match v with
  | VUndefined | VNull => Throw TypeError
  | VObj fields => Normal (default VUndefined (lookupField fields key))
  | _ => Normal VUndefined
  end.

(** [v[i]] for an index [i], on a value that is neither [null] nor [undefined]. *)
Definition getIndex (v : jsval) (i : nat) : jsval :=
  match v with
  | VStr s => from_option (λ c, VStr (letter c)) VUndefined (charAt s i)
  | VArr items => default VUndefined (items !! i)
  | VObj fields => default VUndefined (lookupField fields (decimal i))
  | _ => VUndefined
  end.

(** [fields[key] = v] for a key that is not an index: an existing property
    keeps its place, a new one comes last. *)
Fixpoint setField (fields : list (string * jsval)) (key : string) (v : jsval)
  : list (string * jsval) :=
  match fields with
  | [] => [(key, v)]
  | (k, w) :: rest =>
      if decide (k = key) then (key, v) :: rest else (k, w) :: setField rest key v
  end.

(** [Object.entries(v)] on a value that is neither [null] nor [undefined]. *)
Definition Object_entries (v : jsval) : list (string * jsval) :=
  match v with
  | VObj fields => fields
  | VArr items => imap (λ i x, (decimal i, x)) items
  | VStr s => imap (λ i c, (decimal i, VStr (letter c))) (chars s)
  | _ => []
  end.

Definition Object_values (v : jsval) : list jsval := (Object_entries v).*2.

(** The own properties that [{ ...v }] copies. *)
Definition spread (v : jsval) : list (string * jsval) :=
  match v with
  | VUndefined | VNull => []
  | _ => Object_entries v
  end.

(** [JSON.parse(JSON.stringify(v))] for a [v] that is not [undefined]: a
    property whose value is [undefined] is left out, an [undefined] array item
    becomes [null], and a [Set] has no properties to write. *)
Fixpoint toJSON (v : jsval) : jsval :=
  match v with
  | VArr items =>
      VArr ((fix items_toJSON (l : list jsval) : list jsval :=
               match l with
               | [] => []
               | VUndefined :: l' => VNull :: items_toJSON l'
               | x :: l' => toJSON x :: items_toJSON l'
               end) items)
  | VObj fields =>
      VObj ((fix fields_toJSON (l : list (string * jsval)) : list (string * jsval) :=
               match l with
               | [] => []
               | (_, VUndefined) :: l' => fields_toJSON l'
               | (k, x) :: l' => (k, toJSON x) :: fields_toJSON l'
               end) fields)
  | VSet _ => VObj []
  | _ => v
  end.

(** The two loops of [toJSON], by name. *)
Definition itemsToJSON : list jsval → list jsval :=
  fix items_toJSON (l : list jsval) : list jsval :=
    match l with
    | [] => []
    | VUndefined :: l' => VNull :: items_toJSON l'
    | x :: l' => toJSON x :: items_toJSON l'
    end.

Definition fieldsToJSON : list (string * jsval) → list (string * jsval) :=
  fix fields_toJSON (l : list (string * jsval)) : list (string * jsval) :=
    match l with
    | [] => []
    | (_, VUndefined) :: l' => fields_toJSON l'
    | (k, x) :: l' => (k, toJSON x) :: fields_toJSON l'
    end.

(** A text in storage, by what [JSON.parse] makes of it. *)
Inductive StoredText :=
| Unparsable (text : string)   (* [JSON.parse] throws a SyntaxError *)
| JsonText (value : jsval).    (* the text of [value] *)

Definition JSON_parse (t : StoredText) : Completion jsval :=
  match t with
  | Unparsable _ => Throw SyntaxError
  | JsonText v => Normal v
  end.

(** The empty string is the one falsy text, and it is not JSON. *)
Definition textTruthy (t : StoredText) : bool :=
  match t with
  | Unparsable s => truthy s
  | JsonText _ => true
  end.

(** [localStorage] *)
Abbreviation Storage := (gmap string StoredText).

Definition perform (storage : Storage) (a : Action) : Storage :=
  match a with
  | SetItem key v => <[key := JsonText (toJSON v)]> storage
  | RemoveItem key => delete key storage
  | _ => storage
  end.

(** Storage after the actions of a block. *)
Definition performAll (storage : Storage) (actions : list Action) : Storage :=
  foldl perform storage actions.

Definition isSpace (c : ascii) : bool :=
  let n := nat_of_ascii c in (n =? 32) || ((9 <=? n) && (n <=? 13)).

Definition digitOf (c : ascii) : option Z :=
  let n := nat_of_ascii c in
  if (48 <=? n) && (n <=? 57) then Some (Z.of_nat (n - 48)) else None.

Fixpoint skipSpaces (l : list ascii) : list ascii :=
  match l with
  | c :: l' => if isSpace c then skipSpaces l' else l
  | [] => []
  end.

(** The value of the longest prefix of digits, if there is a digit. *)
Fixpoint digitsPrefix (acc : option Z) (l : list ascii) : option Z :=
  match l with
  | c :: l' =>
      match digitOf c with
      | Some d => digitsPrefix (Some (10 * default 0 acc + d)%Z) l'
      | None => acc
      end
  | [] => acc
  end.

(** [parseInt(s, 10)]; [None] is [NaN]. *)
Definition parseInt (s : string) : option Z :=
  match skipSpaces (chars s) with
  | "-"%char :: l => Z.opp <$> digitsPrefix None l
  | "+"%char :: l => digitsPrefix None l
  | l => digitsPrefix None l
  end.

(** [obj[k] = v] on an object whose keys are numbers: an existing key keeps
    its place; a new index goes among the indices, in ascending order, before
    the other keys; a new negative key comes last. *)
Fixpoint setNumeric (fields : list (Z * jsval)) (k : Z) (v : jsval) : list (Z * jsval) :=
  match fields with
  | [] => [(k, v)]
  | (k', w) :: rest =>
      if decide (k' = k) then (k, v) :: rest
      else if decide (0 ≤ k ∧ (k' < 0 ∨ k < k'))%Z then (k, v) :: (k', w) :: rest
      else (k', w) :: setNumeric rest k v
  end.

Definition numericObject (fields : list (Z * jsval)) : jsval :=
  VObj (prod_map decimalZ id <$> fields).

(** [Object.entries(v).forEach(([key, value]) => { const numericKey =
    parseInt(key, 10); if (!isNaN(numericKey)) obj[numericKey] = value; })]
    starting from [obj = {}]. *)
Definition renumber (v : jsval) : list (Z * jsval) :=
  foldl (λ obj e, match parseInt e.1 with
                  | Some numericKey => setNumeric obj numericKey e.2
                  | None => obj
                  end)
        [] (Object_entries v).

(** The length that [Array.from({ length: v }, ...)] uses.  A number is
    clamped at 0 and [undefined] and [null] give 0; of the other values only
    booleans and decimal numerals are converted the way JavaScript does, the
    rest count as [NaN], which gives 0. *)
Definition toLength (v : jsval) : nat :=
  match v with
  | VNum n => Z.to_nat n
  | VBool true => 1
  | VStr s => from_option Z.to_nat 0 (parseInt s)
  | _ => 0
  end.

(** [Object.fromEntries(Array.from({ length }, (_, i) => [i, secretWord[i]]))] *)
Definition solutionObject (length : nat) (secretWord : jsval) : jsval :=
  VObj ((λ i, (decimal i, getIndex secretWord i)) <$> seq 0 length).

(** [new Array(v).fill('')]: a number is the length of the array, and an
    invalid length throws; any other value becomes its single item. *)
Definition newArrayFill (v : jsval) : Completion jsval :=
  match v with
  | VNum n => if decide (0 ≤ n < 2 ^ 32)%Z then Normal (VArr (replicate (Z.to_nat n) (VStr "")))
              else Throw RangeError
  | _ => Normal (VArr [VStr ""])
  end.

(** *** The game state as a JavaScript object *)

Definition statusName (s : GameStatus) : string :=
  match s with
  | playing => "playing"
  | won => "won"
  | lost => "lost"
  end.

Definition lockedObject (locked : gmap nat string) : jsval :=
  VObj ((λ e, (decimal e.1, VStr e.2)) <$> entries locked).

Definition guessArray (cells : list string) : jsval := VArr (VStr <$> cells).

Definition stateObject (gs : GameState) : list (string * jsval) :=
  [ ("wordLength", VNum (Z.of_nat (wordLength gs)));
    ("secretWord", VStr (secretWord gs));
    ("clue", from_option VStr VUndefined (clue gs));
    ("attempts", guessArray (attempts gs));
    ("lockedLetters", lockedObject (lockedLetters gs));
    ("gameStatus", VStr (statusName (gameStatus gs)));
    ("attemptIndex", VNum (attemptIndex gs));
    ("revealedLetters", VSet ((λ i, VNum (Z.of_nat i)) <$> elements (revealedLetters gs)));
    ("letterRevealsRemaining", VNum (letterRevealsRemaining gs)) ].

(** The whole solution as locked letters, as JSON keeps it: the letters of
    the secret at the positions below the word length. *)
Definition solvedObject (length : nat) (secret : string) : jsval :=
  VObj (omap (λ i, (λ c, (decimal i, VStr (letter c))) <$> charAt secret i) (seq 0 length)).

(** The snapshot that parsing the saved text gives back, with [locked] for
    its locked letters: [JSON.stringify] leaves the absent clue out and writes
    the [Set] of revealed positions as an empty object. *)
Definition snapshot (gs : GameState) (locked : jsval) (today : string)
  (currentGuess : list string) : list (string * jsval) :=
  ([ ("wordLength", VNum (Z.of_nat (wordLength gs)));
     ("secretWord", VStr (secretWord gs)) ]
   ++ match clue gs with Some c => [("clue", VStr c)] | None => [] end
   ++ [ ("attempts", guessArray (attempts gs));
        ("lockedLetters", locked);
        ("gameStatus", VStr (statusName (gameStatus gs)));
        ("attemptIndex", VNum (attemptIndex gs));
        ("revealedLetters", VObj []);
        ("letterRevealsRemaining", VNum (letterRevealsRemaining gs));
        ("date", VStr today);
        ("currentGuess", guessArray currentGuess) ])%list.

(** The locked letters in the text that the save effect of the variant
    writes: the whole solution for a game that is won. *)
Definition savedLocked (gs : GameState) : jsval :=
  if decide (gameStatus gs = won)
  then solvedObject (wordLength gs) (secretWord gs)
  else lockedObject (lockedLetters gs).


Definition puzzleStateKey : string := "wordibble-puzzle-state".
Definition puzzleCompletedKey : string := "wordibble-puzzle-completed".

(** Ascending order of the keys of an object whose keys are indices. *)
Definition key_lt (a b : nat * jsval) : Prop := a.1 < b.1.

(** [v === s] for a string [s]. *)
Definition isString (v : jsval) (s : string) : bool :=
  match v with
  | VStr d => bool_decide (d = s)
  | _ => false
  end.

(** The array that becomes the restored [Set] of revealed positions. *)
Definition revealedLettersArray (revealed : jsval) : list jsval :=
  if jsTruthy revealed then
    match revealed with
    | VArr items => items
    | VObj _ | VSet _ => Object_values revealed
    | _ => []
    end
  else [].

(** ** components/Game.tsx *)

Module Game.

(** Callbacks handed to [setTimeout]. *)
Inductive Timer :=
| ClearClueError    (* setClueError(null) *)
| StopShaking       (* setIsShaking(false) *)
| EndForceClear.    (* setForceClear(false); queueFocusFirstEmpty() *)

Inductive Toast := RevealedLetterAt (position : nat).

(** What a handler does besides setting state. *)
Inductive Effect :=
| SetTimeout (callback : Timer) (ms : nat)
| RecordResult (result : GameResult) (limit : Z)
| ShowToast (toast : Toast)
| QueueFocusFirstEmpty.

(** The state of the component that the handlers read and set. *)
Record Component := {
  gameState : GameState;
  currentGuess : list string;
  clueError : option string;
  isShaking : bool;
  forceClear : bool;
}.

Definition isPositionRevealed (gs : GameState) (position : nat) : bool :=
  bool_decide (position ∈ revealedLetters gs).

(** [handleRevealLetter]; the second component lists the toast it shows.  The
    drawn index is within the eligible positions ([random_unit]), so the
    [None] branch is never taken. *)
Definition handleRevealLetter (u : Random) (gs : GameState) : GameState * list Effect :=
  if bool_decide (letterRevealsRemaining gs ≤ 0)%Z || bool_decide (gameStatus gs ≠ playing)
  then (gs, [])
  else
    let unrevealedPositions :=
      filter (λ i, isLocked (lockedLetters gs) i = false ∧ isPositionRevealed gs i = false)
             (seq 0 (wordLength gs)) in
    if decide (0 < length unrevealedPositions) then
      match unrevealedPositions !! floorRandomTimes u (length unrevealedPositions) with
      | Some randomPosition =>
          ({| wordLength := wordLength gs;
              secretWord := secretWord gs;
              clue := clue gs;
              attempts := attempts gs;
              lockedLetters := lockedLetters gs;
              gameStatus := gameStatus gs;
              attemptIndex := attemptIndex gs;
              revealedLetters := revealedLetters gs ∪ {[ randomPosition ]};
              letterRevealsRemaining := letterRevealsRemaining gs - 1 |},
           [ShowToast (RevealedLetterAt (randomPosition + 1))])
      | None => (gs, [])
      end
    else (gs, []).

(** The state update at the end of the effect that loads the puzzle:
    [setGameState((prev) => ({ ...prev, wordLength, secretWord, clue,
    lockedLetters, revealedLetters: new Set(), letterRevealsRemaining: 1 }))].
    [locked] are the letters that [computeRevealsForWord] pre-reveals. *)
Definition puzzleLoaded (prev : GameState) (puzzleWordLength : nat) (word : string)
  (puzzleClue : option string) (locked : gmap nat string) : GameState :=
  {| wordLength := puzzleWordLength;
     secretWord := word;
     clue := puzzleClue;
     attempts := attempts prev;
     lockedLetters := locked;
     gameStatus := gameStatus prev;
     attemptIndex := attemptIndex prev;
     revealedLetters := ∅;
     letterRevealsRemaining := 1 |}.

(** [adjustedMaxGuesses] *)
Definition adjustedMaxGuesses (settings : GameSettings) (gs : GameState) : Z :=
  let revealedLetterCount := size (lockedLetters gs) in
  if negb (revealClue settings) && bool_decide (revealedLetterCount = 1) then
    (maxGuesses settings + 1)%Z
  else if revealClue settings && bool_decide (2 ≤ revealedLetterCount) then
    Z.max 3 (maxGuesses settings - 2)
  else maxGuesses settings.

(** [handleSubmit].  [today] is the value of [getESTDateString()]. *)
Definition handleSubmit {logic : GameLogicLib} {config : GameConfig}
  (settings : GameSettings) (query : RouterQuery) (dictionary : gset string)
  (today : string) (c : Component) : Component * list Effect :=
  let gs := gameState c in
  if bool_decide (gameStatus gs ≠ playing) then (c, [])
  else
    let completeGuess := completeGuess gs (currentGuess c) in
    if negb (validateGuess completeGuess (wordLength gs)) then
      ({| gameState := gs;
          currentGuess := currentGuess c;
          clueError := Some "Please enter a complete word";
          isShaking := isShaking c;
          forceClear := forceClear c |},
       [SetTimeout ClearClueError 1000])
    else if bool_decide (completeGuess ∉ dictionary) then
      ({| gameState := gs;
          currentGuess := lockedRow (wordLength gs) (lockedLetters gs);
          clueError := Some "Not in dictionary";
          isShaking := true;
          forceClear := true |},
       [SetTimeout ClearClueError 1000; SetTimeout StopShaking 500;
        SetTimeout EndForceClear 100])
    else
      let evaluation := evaluateGuess completeGuess (secretWord gs) in
      let isWin := allCorrect evaluation in
      let newLocked := lockCorrect completeGuess evaluation (lockedLetters gs) in
      let limit := adjustedMaxGuesses settings gs in
      let nextAttemptIndex := (attemptIndex gs + 1)%Z in
      let newStatus :=
        if isWin then won
        else if bool_decide (limit ≤ nextAttemptIndex)%Z then lost
        else playing in
      ({| gameState :=
            {| wordLength := wordLength gs;
               secretWord := secretWord gs;
               clue := clue gs;
               attempts := (attempts gs ++ [completeGuess])%list;
               lockedLetters := newLocked;
               gameStatus := newStatus;
               attemptIndex := nextAttemptIndex;
               revealedLetters := revealedLetters gs;
               letterRevealsRemaining := letterRevealsRemaining gs |};
          currentGuess := lockedRow (wordLength gs) newLocked;
          clueError := None;
          isShaking := isShaking c;
          forceClear := forceClear c |},
       ((if isArchivePuzzle query then []
        else [RecordResult
                {| dateISO := today;
                   result_wordLength := WORD_LENGTH;
                   result_won := isWin;
                   guesses := if isWin then (attemptIndex gs + 1)%Z else limit;
                   solution := secretWord gs;
                   mode := {| mode_revealVowels := REVEAL_VOWELS;
                              mode_vowelCount := REVEAL_VOWEL_COUNT;
                              mode_revealClue := REVEAL_CLUE;
                              mode_randomPuzzle := randomPuzzle settings |} |}
                limit])
        ++ [QueueFocusFirstEmpty])%list).

(** What a timer does when it fires. *)
Definition fire (t : Timer) (c : Component) : Component * list Effect :=
  match t with
  | ClearClueError =>
      ({| gameState := gameState c;
          currentGuess := currentGuess c;
          clueError := None;
          isShaking := isShaking c;
          forceClear := forceClear c |}, [])
  | StopShaking =>
      ({| gameState := gameState c;
          currentGuess := currentGuess c;
          clueError := clueError c;
          isShaking := false;
          forceClear := forceClear c |}, [])
  | EndForceClear =>
      ({| gameState := gameState c;
          currentGuess := currentGuess c;
          clueError := clueError c;
          isShaking := isShaking c;
          forceClear := false |}, [QueueFocusFirstEmpty])
  end.

(** What the player does during a game: type a row and submit it, or ask for
    the lifeline. *)
Inductive Event :=
| Submit (typed : list string)
| Reveal (u : Random).

Definition typedEvent (e : Event) : Prop :=
  match e with
  | Submit typed => typedCells typed
  | Reveal _ => True
  end.

Definition step {logic : GameLogicLib} {config : GameConfig}
  (settings : GameSettings) (query : RouterQuery) (dictionary : gset string)
  (today : string) (c : Component) (e : Event) : Component :=
  match e with
  | Submit typed =>
      (handleSubmit settings query dictionary today
         {| gameState := gameState c;
            currentGuess := typed;
            clueError := clueError c;
            isShaking := isShaking c;
            forceClear := forceClear c |}).1
  | Reveal u =>
      {| gameState := (handleRevealLetter u (gameState c)).1;
         currentGuess := currentGuess c;
         clueError := clueError c;
         isShaking := isShaking c;
         forceClear := forceClear c |}
  end.

Definition run {logic : GameLogicLib} {config : GameConfig}
  (settings : GameSettings) (query : RouterQuery) (dictionary : gset string)
  (today : string) (c : Component) (events : list Event) : Component :=
  foldl (step settings query dictionary today) c events.

(** *** Persistence of the puzzle state *)

(** The effect that restores the saved puzzle state.  [today] is the value of
    [getESTDateString()]. *)
Definition restorePuzzleState (settings : GameSettings) (query : RouterQuery)
  (today : string) (storage : Storage) : Block unit :=
  match storage !! puzzleStateKey with
  | Some savedPuzzleState =>
      if textTruthy savedPuzzleState && negb (randomPuzzle settings)
         && negb (isArchivePuzzle query)
      then
        tryCatch
          (puzzleState ← lift (JSON_parse savedPuzzleState);
           date ← lift (getProp puzzleState "date");
           if isString date today then
             revealed ← lift (getProp puzzleState "revealedLetters");
             let fixedPuzzleState :=
               VObj (setField (spread puzzleState) "revealedLetters"
                              (VSet (revealedLettersArray revealed))) in
             act (SetGameState fixedPuzzleState);;
             currentGuess ← lift (getProp puzzleState "currentGuess");
             wordLength ← lift (getProp puzzleState "wordLength");
             guess ← (if jsTruthy currentGuess then mret currentGuess
                      else lift (newArrayFill wordLength));
             act (SetCurrentGuess guess)
           else
             act (RemoveItem puzzleStateKey);;
             act (RemoveItem puzzleCompletedKey))
          (λ e, act (ConsoleError "Failed to parse saved puzzle state:"))
      else mret tt
  | None => mret tt
  end.

(** The effect that saves the puzzle state. *)
Definition savePuzzleState (settings : GameSettings) (query : RouterQuery)
  (today : string) (gs : GameState) (currentGuess : list string) : Block unit :=
  if truthy (secretWord gs) && negb (randomPuzzle settings) && negb (isArchivePuzzle query)
  then
    let puzzleState :=
      VObj (setField (setField (stateObject gs) "date" (VStr today))
                     "currentGuess" (guessArray currentGuess)) in
    act (SetItem puzzleStateKey puzzleState)
  else mret tt.

(** The clean-up of a stale snapshot at the start of the effect that loads
    the puzzle. *)
Definition clearStalePuzzleState (query : RouterQuery) (today : string)
  (storage : Storage) : Block unit :=
  if negb (isArchivePuzzle query) then
    match storage !! puzzleStateKey with
    | Some savedPuzzleState =>
        if textTruthy savedPuzzleState then
          tryCatch
            (puzzleState ← lift (JSON_parse savedPuzzleState);
             date ← lift (getProp puzzleState "date");
             if negb (isString date today) then
               act (RemoveItem puzzleStateKey);;
               act (RemoveItem puzzleCompletedKey)
             else mret tt)
            (λ e, act (ConsoleError "Failed to parse saved puzzle state for cleanup:"))
        else mret tt
    | None => mret tt
    end
  else mret tt.

End Game.

(** ** The flip-animation variant of the component

    The second version of [Game.tsx] among the sources delays the locking of
    green letters until the row has flipped, gates it by the
    [lockGreenMatchedLetters] setting, and compares the attempt index with
    [settings.maxGuesses] itself. *)

Module Variant.

(** What the flip timer of [handleSubmit] closes over. *)
Record FlipClosure := {
  flip_isWin : bool;
  flip_newRowIndex : nat;
  flip_newLocked : gmap nat string;
  flip_lockedLetters : gmap nat string;        (* gameState.lockedLetters *)
  flip_lockGreenMatchedLetters : bool;
  flip_previouslyRevealedPositions : gset nat;
  flip_wordLength : nat;
}.

Inductive Timer :=
| ClearClueError
| StopShaking
| EndForceClear
| FlipDone (closure : FlipClosure)
| HideFadeIn.       (* setShowFadeInForInput(false) *)

Inductive Toast := RevealedLetterAt (position : nat).

Inductive Effect :=
| SetTimeout (callback : Timer) (ms : nat)
| RecordResult (result : GameResult) (limit : Z)
| ShowToast (toast : Toast)
| QueueFocusFirstEmpty.

Record Component := {
  gameState : GameState;
  currentGuess : list string;
  clueError : option string;
  isShaking : bool;
  forceClear : bool;
  flippingRows : gset nat;
  showFadeInForInput : bool;
  fadeOutClearInput : bool;
  previouslyRevealedPositions : gset nat;
}.

(** Here a locked position counts as revealed. *)
Definition isPositionRevealed (gs : GameState) (position : nat) : bool :=
  if isLocked (lockedLetters gs) position then true
  else bool_decide (position ∈ revealedLetters gs).

Definition handleRevealLetter (u : Random) (gs : GameState) : GameState * list Effect :=
  if bool_decide (letterRevealsRemaining gs ≤ 0)%Z || bool_decide (gameStatus gs ≠ playing)
  then (gs, [])
  else
    let unrevealedPositions :=
      filter (λ i, isPositionRevealed gs i = false) (seq 0 (wordLength gs)) in
    if decide (0 < length unrevealedPositions) then
      match unrevealedPositions !! floorRandomTimes u (length unrevealedPositions) with
      | Some randomPosition =>
          ({| wordLength := wordLength gs;
              secretWord := secretWord gs;
              clue := clue gs;
              attempts := attempts gs;
              lockedLetters := lockedLetters gs;
              gameStatus := gameStatus gs;
              attemptIndex := attemptIndex gs;
              revealedLetters := revealedLetters gs ∪ {[ randomPosition ]};
              letterRevealsRemaining := letterRevealsRemaining gs - 1 |},
           [ShowToast (RevealedLetterAt (randomPosition + 1))])
      | None => (gs, [])
      end
    else (gs, []).

(** The state update at the end of the effect that loads the puzzle; locked
    letters that were restored from storage are kept. *)
Definition puzzleLoaded (prev : GameState) (puzzleWordLength : nat) (word : string)
  (puzzleClue : option string) (locked : gmap nat string) : GameState :=
  {| wordLength := puzzleWordLength;
     secretWord := word;
     clue := puzzleClue;
     attempts := attempts prev;
     lockedLetters :=
       if decide (0 < size (lockedLetters prev)) then lockedLetters prev else locked;
     gameStatus := gameStatus prev;
     attemptIndex := attemptIndex prev;
     revealedLetters := ∅;
     letterRevealsRemaining := 1 |}.

Definition setGameState (c : Component) (gs : GameState) : Component :=
  {| gameState := gs;
     currentGuess := currentGuess c;
     clueError := clueError c;
     isShaking := isShaking c;
     forceClear := forceClear c;
     flippingRows := flippingRows c;
     showFadeInForInput := showFadeInForInput c;
     fadeOutClearInput := fadeOutClearInput c;
     previouslyRevealedPositions := previouslyRevealedPositions c |}.

Definition setLockedLetters (gs : GameState) (locked : gmap nat string) : GameState :=
  {| wordLength := wordLength gs;
     secretWord := secretWord gs;
     clue := clue gs;
     attempts := attempts gs;
     lockedLetters := locked;
     gameStatus := gameStatus gs;
     attemptIndex := attemptIndex gs;
     revealedLetters := revealedLetters gs;
     letterRevealsRemaining := letterRevealsRemaining gs |}.

(** [handleSubmit]: the part that runs at once.  The locked letters are left
    to the flip timer. *)
Definition handleSubmit {logic : GameLogicLib} {config : GameConfig}
  (settings : GameSettings) (query : RouterQuery) (dictionary : gset string)
  (today : string) (c : Component) : Component * list Effect :=
  let gs := gameState c in
  if bool_decide (gameStatus gs ≠ playing) then (c, [])
  else
    let completeGuess := completeGuess gs (currentGuess c) in
    if negb (validateGuess completeGuess (wordLength gs)) then
      ({| gameState := gs;
          currentGuess := currentGuess c;
          clueError := Some "Not enough letters";
          isShaking := isShaking c;
          forceClear := forceClear c;
          flippingRows := flippingRows c;
          showFadeInForInput := showFadeInForInput c;
          fadeOutClearInput := fadeOutClearInput c;
          previouslyRevealedPositions := previouslyRevealedPositions c |},
       [SetTimeout ClearClueError 1500])
    else if bool_decide (completeGuess ∉ dictionary) then
      ({| gameState := gs;
          currentGuess := lockedRow (wordLength gs) (lockedLetters gs);
          clueError := Some "Not in the valid word list!";
          isShaking := true;
          forceClear := true;
          flippingRows := flippingRows c;
          showFadeInForInput := showFadeInForInput c;
          fadeOutClearInput := fadeOutClearInput c;
          previouslyRevealedPositions := previouslyRevealedPositions c |},
       [SetTimeout ClearClueError 1500; SetTimeout StopShaking 500;
        SetTimeout EndForceClear 100])
    else
      let evaluation := evaluateGuess completeGuess (secretWord gs) in
      let isWin := allCorrect evaluation in
      let newLocked := lockCorrect completeGuess evaluation (lockedLetters gs) in
      let nextAttemptIndex := (attemptIndex gs + 1)%Z in
      let newStatus :=
        if isWin then won
        else if bool_decide (maxGuesses settings ≤ nextAttemptIndex)%Z then lost
        else playing in
      let newRowIndex := length (attempts gs) in
      ({| gameState :=
            {| wordLength := wordLength gs;
               secretWord := secretWord gs;
               clue := clue gs;
               attempts := (attempts gs ++ [completeGuess])%list;
               lockedLetters := lockedLetters gs;
               gameStatus := newStatus;
               attemptIndex := nextAttemptIndex;
               revealedLetters := revealedLetters gs;
               letterRevealsRemaining := letterRevealsRemaining gs |};
          currentGuess := currentGuess c;
          clueError := None;
          isShaking := isShaking c;
          forceClear := forceClear c;
          flippingRows := flippingRows c ∪ {[ newRowIndex ]};
          showFadeInForInput := showFadeInForInput c;
          fadeOutClearInput := fadeOutClearInput c;
          previouslyRevealedPositions := previouslyRevealedPositions c |},
       (SetTimeout
          (FlipDone {| flip_isWin := isWin;
                       flip_newRowIndex := newRowIndex;
                       flip_newLocked := newLocked;
                       flip_lockedLetters := lockedLetters gs;
                       flip_lockGreenMatchedLetters := lockGreenMatchedLetters settings;
                       flip_previouslyRevealedPositions := previouslyRevealedPositions c;
                       flip_wordLength := wordLength gs |})
          (wordLength gs * TILE_FLIP_DURATION)
        :: (if isArchivePuzzle query then []
            else [RecordResult
                    {| dateISO := today;
                       result_wordLength := WORD_LENGTH;
                       result_won := isWin;
                       guesses := if isWin then (attemptIndex gs + 1)%Z
                                  else maxGuesses settings;
                       solution := secretWord gs;
                       mode := {| mode_revealVowels := REVEAL_VOWELS;
                                  mode_vowelCount := REVEAL_VOWEL_COUNT;
                                  mode_revealClue := REVEAL_CLUE;
                                  mode_randomPuzzle := randomPuzzle settings |} |}
                    (maxGuesses settings)]))).

(** The callback of the flip timer. *)
Definition flipDone (k : FlipClosure) (c : Component) : Component * list Effect :=
  let finalLockedLetters :=
    if flip_lockGreenMatchedLetters k then flip_newLocked k else flip_lockedLetters k in
  let newlyRevealedPositions : gset nat :=
    if flip_lockGreenMatchedLetters k then
      list_to_set
        (filter (λ e, truthy e.2 = true ∧ e.1 ∉ flip_previouslyRevealedPositions k)
                (entries (flip_newLocked k))).*1
    else ∅ in
  let fade := bool_decide (0 < size newlyRevealedPositions) in
  ({| gameState := setLockedLetters (gameState c) finalLockedLetters;
      currentGuess :=
        if flip_lockGreenMatchedLetters k
        then lockedRow (flip_wordLength k) (flip_newLocked k)
        else replicate (flip_wordLength k) "";
      clueError := clueError c;
      isShaking := isShaking c;
      forceClear := forceClear c;
      flippingRows :=
        if flip_isWin k then flippingRows c
        else flippingRows c ∖ {[ flip_newRowIndex k ]};
      showFadeInForInput := if fade then true else showFadeInForInput c;
      fadeOutClearInput := true;
      previouslyRevealedPositions :=
        previouslyRevealedPositions c ∪ newlyRevealedPositions |},
   if fade then [SetTimeout HideFadeIn 500] else []).

(** What a timer does when it fires. *)
Definition fire (t : Timer) (c : Component) : Component * list Effect :=
  match t with
  | ClearClueError =>
      ({| gameState := gameState c;
          currentGuess := currentGuess c;
          clueError := None;
          isShaking := isShaking c;
          forceClear := forceClear c;
          flippingRows := flippingRows c;
          showFadeInForInput := showFadeInForInput c;
          fadeOutClearInput := fadeOutClearInput c;
          previouslyRevealedPositions := previouslyRevealedPositions c |}, [])
  | StopShaking =>
      ({| gameState := gameState c;
          currentGuess := currentGuess c;
          clueError := clueError c;
          isShaking := false;
          forceClear := forceClear c;
          flippingRows := flippingRows c;
          showFadeInForInput := showFadeInForInput c;
          fadeOutClearInput := fadeOutClearInput c;
          previouslyRevealedPositions := previouslyRevealedPositions c |}, [])
  | EndForceClear =>
      ({| gameState := gameState c;
          currentGuess := currentGuess c;
          clueError := clueError c;
          isShaking := isShaking c;
          forceClear := false;
          flippingRows := flippingRows c;
          showFadeInForInput := showFadeInForInput c;
          fadeOutClearInput := fadeOutClearInput c;
          previouslyRevealedPositions := previouslyRevealedPositions c |},
       [QueueFocusFirstEmpty])
  | FlipDone k => flipDone k c
  | HideFadeIn =>
      ({| gameState := gameState c;
          currentGuess := currentGuess c;
          clueError := clueError c;
          isShaking := isShaking c;
          forceClear := forceClear c;
          flippingRows := flippingRows c;
          showFadeInForInput := false;
          fadeOutClearInput := fadeOutClearInput c;
          previouslyRevealedPositions := previouslyRevealedPositions c |}, [])
  end.

(** A submission whose row has finished flipping: [handleSubmit], then the
    flip timer it set. *)
Definition submitAndFlip {logic : GameLogicLib} {config : GameConfig}
  (settings : GameSettings) (query : RouterQuery) (dictionary : gset string)
  (today : string) (c : Component) : Component :=
  let '(c', effects) := handleSubmit settings query dictionary today c in
  foldl (λ c'' e, match e with
                  | SetTimeout (FlipDone k) _ => (fire (FlipDone k) c'').1
                  | _ => c''
                  end) c' effects.

Inductive Event :=
| Submit (typed : list string)
| Reveal (u : Random).

Definition typedEvent (e : Event) : Prop :=
  match e with
  | Submit typed => typedCells typed
  | Reveal _ => True
  end.

Definition step {logic : GameLogicLib} {config : GameConfig}
  (settings : GameSettings) (query : RouterQuery) (dictionary : gset string)
  (today : string) (c : Component) (e : Event) : Component :=
  match e with
  | Submit typed =>
      submitAndFlip settings query dictionary today
        {| gameState := gameState c;
           currentGuess := typed;
           clueError := clueError c;
           isShaking := isShaking c;
           forceClear := forceClear c;
           flippingRows := flippingRows c;
           showFadeInForInput := showFadeInForInput c;
           fadeOutClearInput := fadeOutClearInput c;
           previouslyRevealedPositions := previouslyRevealedPositions c |}
  | Reveal u => setGameState c (handleRevealLetter u (gameState c)).1
  end.

Definition run {logic : GameLogicLib} {config : GameConfig}
  (settings : GameSettings) (query : RouterQuery) (dictionary : gset string)
  (today : string) (c : Component) (events : list Event) : Component :=
  foldl (step settings query dictionary today) c events.

(** *** Persistence of the puzzle state *)

(** [finalLockedLetters] of the restore effect. *)
Definition restoredLockedLetters (lockedLetters gameStatus secretWord wordLength : jsval)
  : jsval :=
  if jsTruthy lockedLetters && bool_decide (0 < length (Object_entries lockedLetters)) then
    numericObject (renumber lockedLetters)
  else if isString gameStatus "won" && jsTruthy secretWord then
    solutionObject (toLength wordLength) secretWord
  else VObj [].

(** The effect that restores the saved puzzle state, once per mount. *)
Definition restorePuzzleState (hasRestoredFromStorage : bool)
  (settings : GameSettings) (query : RouterQuery)
  (today : string) (storage : Storage) : Block unit :=
  if hasRestoredFromStorage then mret tt
  else
    match storage !! puzzleStateKey with
    | Some savedPuzzleState =>
        if textTruthy savedPuzzleState && negb (randomPuzzle settings)
           && negb (isArchivePuzzle query)
        then
          tryCatch
            (puzzleState ← lift (JSON_parse savedPuzzleState);
             date ← lift (getProp puzzleState "date");
             if isString date today then
               revealed ← lift (getProp puzzleState "revealedLetters");
               lockedLetters ← lift (getProp puzzleState "lockedLetters");
               gameStatus ← lift (getProp puzzleState "gameStatus");
               secretWord ← lift (getProp puzzleState "secretWord");
               wordLength ← lift (getProp puzzleState "wordLength");
               let finalLockedLetters :=
                 restoredLockedLetters lockedLetters gameStatus secretWord wordLength in
               let fixedPuzzleState :=
                 VObj (setField
                         (setField (spread puzzleState) "revealedLetters"
                                   (VSet (revealedLettersArray revealed)))
                         "lockedLetters" finalLockedLetters) in
               act (SetGameState fixedPuzzleState);;
               if isString gameStatus "won" then
                 let solutionGuess :=
                   VArr ((λ i, let l := getIndex finalLockedLetters i in
                               if jsTruthy l then l else VStr "")
                           <$> seq 0 (toLength wordLength)) in
                 act (SetCurrentGuess solutionGuess)
               else
                 currentGuess ← lift (getProp puzzleState "currentGuess");
                 guess ← (if jsTruthy currentGuess then mret currentGuess
                          else lift (newArrayFill wordLength));
                 act (SetCurrentGuess guess);;
                 act MarkRestored
             else
               act (RemoveItem puzzleStateKey);;
               act (RemoveItem puzzleCompletedKey))
            (λ e, act (ConsoleError "Failed to parse saved puzzle state:"))
        else mret tt
    | None => mret tt
    end.

(** The effect that saves the puzzle state: the keys of the locked letters
    are made numbers again, and a won game is saved with the whole solution
    locked. *)
Definition savePuzzleState (settings : GameSettings) (query : RouterQuery)
  (today : string) (gs : GameState) (currentGuess : list string) : Block unit :=
  if truthy (secretWord gs) && negb (randomPuzzle settings) && negb (isArchivePuzzle query)
  then
    let numericLockedLetters := numericObject (renumber (lockedObject (lockedLetters gs))) in
    let finalLockedLetters :=
      if bool_decide (gameStatus gs = won) && truthy (secretWord gs)
      then solutionObject (wordLength gs) (VStr (secretWord gs))
      else numericLockedLetters in
    let puzzleState :=
      VObj (setField
              (setField (setField (stateObject gs) "lockedLetters" finalLockedLetters)
                        "date" (VStr today))
              "currentGuess" (guessArray currentGuess)) in
    act (SetItem puzzleStateKey puzzleState)
  else mret tt.

End Variant.

(** ** lib/daily.ts *)

Module Daily.

Record PuzzleData := {
  puzzle_date : string;
  puzzle_word : string;
}.

(** [CluesData]: the clues by word, in the order [Object.keys] lists them. *)
Abbreviation CluesData := (list (string * string)).

Record DailyPuzzle := {
  word : string;
  clue : string;
  isToday : bool;
}.

(** What [await fetch(url)] gives: the request fails, or there is a response
    with its [ok] flag, whose [json()] gives a value or fails (which covers a
    body that is not of the expected type). *)
Inductive Fetched (A : Type) :=
| NetworkFailure (e : JsError)
| Response (ok : bool) (json : Completion A).
Arguments NetworkFailure {A} e.
Arguments Response {A} ok json.

(** [const r = await fetch(url); if (!r.ok) throw new Error(message);
    ... await r.json()] *)
Definition jsonOf {A} (r : Fetched A) (message : string) : Completion A :=
  match r with
  | NetworkFailure e => Throw e
  | Response false _ => Throw (Error message)
  | Response true json => json
  end.

Definition andThen {A B} (c : Completion A) (k : A → Completion B) : Completion B :=
  match c with
  | Normal a => k a
  | Throw e => Throw e
  end.

(** [findClue]; [clues[matchingKey]] is the text listed with that key. *)
Definition findClue (clues : CluesData) (word : string) : string :=
  let normalizedWord := toUpperCase word in
  match List.find (λ e, bool_decide (toUpperCase e.1 = normalizedWord)) clues with
  | Some (matchingKey, clueText) =>
      if truthy matchingKey then clueText else "I literally have no clue"
  | None => "I literally have no clue"
  end.

Fixpoint beforeDash (l : list ascii) : list ascii :=
  match l with
  | [] => []
  | c :: l' => if decide (c = "-"%char) then [] else c :: beforeDash l'
  end.

(** [date.split('-')[0]] *)
Definition yearOf (date : string) : string := str (beforeDash (chars date)).

(** The [try] block of [loadDailyPuzzle].  [today] and [todayEST] are the
    values of its two calls of [getESTDateString()]; [fetchPuzzles] and
    [fetchClues] are what the server answers. *)
Definition loadDailyPuzzle_try (randomMode : bool) (today todayEST : string)
  (fetchPuzzles : bool → Fetched (list PuzzleData))
  (fetchClues : string → Fetched CluesData) : Completion DailyPuzzle :=
  andThen (jsonOf (fetchPuzzles randomMode) "Failed to load puzzle data") (λ puzzles,
    let puzzle :=
      if randomMode then head puzzles
      else
        match List.find (λ p, bool_decide (puzzle_date p = today)) puzzles with
        | Some p => Some p
        | None => if decide (0 < length puzzles) then head puzzles else None
        end in
    match puzzle with
    | None => Throw (Error "No puzzle data available")
    | Some puzzle =>
        let year := yearOf (puzzle_date puzzle) in
        andThen (jsonOf (fetchClues year) "Failed to load clues data") (λ clues,
          Normal {| word := toUpperCase (puzzle_word puzzle);
                    clue := findClue clues (puzzle_word puzzle);
                    isToday := negb randomMode
                               && bool_decide (puzzle_date puzzle = todayEST) |})
    end).

Definition defaultPuzzle : DailyPuzzle :=
  {| word := "HELLO"; clue := "A friendly greeting"; isToday := false |}.

(** [loadDailyPuzzle]: the promise it returns is fulfilled ([Normal]) or
    rejected ([Throw]). *)
Definition loadDailyPuzzle (randomMode : bool) (today todayEST : string)
  (fetchPuzzles : bool → Fetched (list PuzzleData))
  (fetchClues : string → Fetched CluesData) : Completion DailyPuzzle :=
  match loadDailyPuzzle_try randomMode today todayEST fetchPuzzles fetchClues with
  | Normal puzzle => Normal puzzle
  | Throw error => Normal defaultPuzzle
  end.

End Daily.

(** ** A sample game: the secret is CRANE *)

Module Sample.

Definition config : GameConfig := {|
  WORD_LENGTH := 5;
  MAX_GUESSES := 6;
  REVEAL_VOWELS := false;
  REVEAL_VOWEL_COUNT := 0;
  REVEAL_CLUE := true;
  RANDOM_PUZZLE := false;
  LOCK_GREEN_MATCHED_LETTERS := true;
  TILE_FLIP_DURATION := 300;
|}.

(** Six guesses, no clue, daily puzzle. *)
Definition settings : GameSettings := {|
  settings_wordLength := 5;
  maxGuesses := 6;
  revealVowels := false;
  revealVowelCount := 0;
  revealClue := false;
  randomPuzzle := false;
  lockGreenMatchedLetters := true;
|}.

(** The same in random mode. *)
Definition randomSettings : GameSettings := {|
  settings_wordLength := 5;
  maxGuesses := 6;
  revealVowels := false;
  revealVowelCount := 0;
  revealClue := false;
  randomPuzzle := true;
  lockGreenMatchedLetters := true;
|}.

(** The same with the locking of green letters switched off. *)
Definition unlockedSettings : GameSettings := {|
  settings_wordLength := 5;
  maxGuesses := 6;
  revealVowels := false;
  revealVowelCount := 0;
  revealClue := false;
  randomPuzzle := false;
  lockGreenMatchedLetters := false;
|}.

(** Neither [?date=] nor [?archive=] in the address. *)
Definition query : RouterQuery := {| query_date := None; query_archive := None |}.

Definition dictionary : gset string := {[ "SLATE"; "CRANE"; "BRAND"; "STALE" ]}.

Definition today : string := "2025-09-01".

(** A fresh game. *)
Definition fresh : GameState := {|
  wordLength := 5;
  secretWord := "CRANE";
  clue := None;
  attempts := [];
  lockedLetters := ∅;
  gameStatus := playing;
  attemptIndex := 0;
  revealedLetters := ∅;
  letterRevealsRemaining := 1;
|}.

(** Five guesses made, the A locked at the third position. *)
Definition fifth : GameState := {|
  wordLength := 5;
  secretWord := "CRANE";
  clue := None;
  attempts := ["BRAND"; "BRAND"; "BRAND"; "BRAND"; "BRAND"];
  lockedLetters := {[ 2 := "A" ]};
  gameStatus := playing;
  attemptIndex := 5;
  revealedLetters := ∅;
  letterRevealsRemaining := 1;
|}.

Definition component (gs : GameState) (row : list string) : Game.Component := {|
  Game.gameState := gs;
  Game.currentGuess := row;
  Game.clueError := None;
  Game.isShaking := false;
  Game.forceClear := false;
|}.

Definition variantComponent (gs : GameState) (row : list string) : Variant.Component := {|
  Variant.gameState := gs;
  Variant.currentGuess := row;
  Variant.clueError := None;
  Variant.isShaking := false;
  Variant.forceClear := false;
  Variant.flippingRows := ∅;
  Variant.showFadeInForInput := false;
  Variant.fadeOutClearInput := false;
  Variant.previouslyRevealedPositions := ∅;
|}.

(** A draw of [Math.random()]: one half. *)
Definition half : Random :=
  {| random_num := 1; random_den := 2; random_unit := le_n 2 |}.


(** What the server holds: no puzzle for [today]. *)
Definition puzzlesOfAugust : list Daily.PuzzleData :=
  [ {| Daily.puzzle_date := "2025-08-30"; Daily.puzzle_word := "grace" |};
    {| Daily.puzzle_date := "2025-08-31"; Daily.puzzle_word := "faith" |} ].

Definition cluesOf2025 : Daily.CluesData :=
  [("FAITH", "Trust"); ("Grace", "Unearned favour")].

Definition serverPuzzles (random : bool) : Daily.Fetched (list Daily.PuzzleData) :=
  Daily.Response true (Normal puzzlesOfAugust).

Definition serverClues (year : string) : Daily.Fetched Daily.CluesData :=
  if bool_decide (year = "2025") then Daily.Response true (Normal cluesOf2025)
  else Daily.Response false (Throw (Error "not found")).

End Sample.

(** * Properties *)

(** ** Strings *)

Lemma chars_str l : chars (str l) = l.
Proof. apply list_ascii_of_string_of_list_ascii. Qed.








Lemma strlen_toUpperCase s : strlen (toUpperCase s) = strlen s.
Proof. unfold strlen, toUpperCase. by rewrite chars_str, length_fmap. Qed.

Lemma truthy_strlen s : truthy s = true ↔ 0 < strlen s.
Proof. destruct s; unfold strlen; simpl; split; (done || lia). Qed.

Lemma charAt_letter c : charAt (letter c) 0 = Some c.
Proof. done. Qed.


(** ** The evaluator never over-counts a letter *)

Module GameLogicFacts.
Import GameLogic.

Lemma multiplicity_seedPool c secret :
  multiplicity c (seedPool secret) = occurrences c secret.
Proof.
  unfold seedPool, occurrences.
  induction secret as [|x secret IH]; simpl.
  - by rewrite multiplicity_empty.
  - rewrite multiplicity_disj_union, multiplicity_singleton, IH, filter_cons.
    repeat case_decide; simpl; congruence.
Qed.

Lemma markCorrect_length guess secret pool :
  length guess = length secret →
  length (markCorrect guess secret pool).1 = length guess.
Proof.
  revert secret pool.
  induction guess as [|g guess IH]; intros [|s secret] pool Hlen; simplify_eq/=; [done|].
  case_decide.
  - specialize (IH secret (pool ∖ {[+ g +]}) Hlen).
    destruct (markCorrect guess secret (pool ∖ {[+ g +]})); simpl in *; lia.
  - specialize (IH secret pool Hlen).
    destruct (markCorrect guess secret pool); simpl in *; lia.
Qed.

Lemma markCorrect_marks guess secret pool :
  Forall (λ m, m = None ∨ m = Some correct) (markCorrect guess secret pool).1.
Proof.
  revert secret pool.
  induction guess as [|g guess IH]; intros [|s secret] pool; simpl; try by constructor.
  case_decide.
  - specialize (IH secret (pool ∖ {[+ g +]})).
    destruct (markCorrect guess secret (pool ∖ {[+ g +]})); simpl in *.
    constructor; auto.
  - specialize (IH secret pool).
    destruct (markCorrect guess secret pool); simpl in *.
    constructor; auto.
Qed.

(** Pass 1 takes out of the pool exactly the copies it marked. *)
Lemma markCorrect_pool guess secret pool c :
  seedPool secret ⊆ pool →
  multiplicity c (markCorrect guess secret pool).2
    + hits c guess (markCorrect guess secret pool).1
  = multiplicity c pool.
Proof.
  revert secret pool.
  induction guess as [|g guess IH]; intros [|s secret] pool Hsub; simpl; try lia.
  unfold seedPool in Hsub; simpl in Hsub.
  case_decide as Hgs.
  - subst s.
    assert (seedPool secret ⊆ pool ∖ {[+ g +]}) as Hsub' by (unfold seedPool; multiset_solver).
    specialize (IH secret _ Hsub').
    destruct (markCorrect guess secret (pool ∖ {[+ g +]})) as [marks pool']; simpl in *.
    rewrite multiplicity_difference, multiplicity_singleton in IH.
    assert (1 ≤ multiplicity g pool).
    { pose proof (Hsub g) as Hg.
      rewrite multiplicity_disj_union, multiplicity_singleton_eq in Hg. lia. }
    repeat case_decide; destruct_and?; simplify_eq; try lia; naive_solver.
  - assert (seedPool secret ⊆ pool) as Hsub' by (unfold seedPool; multiset_solver).
    specialize (IH secret _ Hsub').
    destruct (markCorrect guess secret pool) as [marks pool']; simpl in *.
    case_decide; [naive_solver | lia].
Qed.

(** Pass 2 keeps the [correct] marks and takes a copy out of the pool for
    every [present] it gives. *)
Lemma markPresent_counts guess marks pool c :
  Forall (λ m, m = None ∨ m = Some correct) marks →
  marked correct c guess (markPresent guess marks pool) = hits c guess marks
  ∧ marked present c guess (markPresent guess marks pool) ≤ multiplicity c pool.
Proof.
  revert marks pool.
  induction guess as [|g guess IH]; intros [|m marks] pool Hm; simpl; try (split; lia).
  inversion Hm as [|? ? [-> | ->] Hm']; subst.
  - case_decide as Hpos.
    + destruct (IH marks (pool ∖ {[+ g +]}) Hm') as [IH1 IH2].
      rewrite multiplicity_difference, multiplicity_singleton in IH2.
      simpl. rewrite IH1.
      repeat case_decide; destruct_and?; simplify_eq; split; try lia; naive_solver.
    + destruct (IH marks pool Hm') as [IH1 IH2].
      simpl. rewrite IH1.
      repeat case_decide; destruct_and?; simplify_eq; split; try lia; naive_solver.
  - destruct (IH marks pool Hm') as [IH1 IH2].
    simpl. rewrite IH1.
    repeat case_decide; destruct_and?; simplify_eq; split; try lia; naive_solver.
Qed.

Lemma markPresent_length guess marks pool :
  length marks = length guess →
  length (markPresent guess marks pool) = length guess.
Proof.
  revert marks pool.
  induction guess as [|g guess IH]; intros [|m marks] pool Hlen; simplify_eq/=; [done|].
  destruct m; [|case_decide]; simpl; rewrite IH; done.
Qed.

Lemma score_length guess secret :
  length guess = length secret → length (score guess secret) = length guess.
Proof.
  intros Hlen. unfold score.
  pose proof (markCorrect_length guess secret (seedPool secret) Hlen) as H.
  destruct (markCorrect guess secret (seedPool secret)) as [marks pool]; simpl in *.
  by apply markPresent_length.
Qed.

Lemma score_counts guess secret c :
  marked present c guess (score guess secret)
    ≤ occurrences c secret - marked correct c guess (score guess secret)
  ∧ marked correct c guess (score guess secret)
    + marked present c guess (score guess secret) ≤ occurrences c secret.
Proof.
  unfold score.
  pose proof (markCorrect_pool guess secret (seedPool secret) c (reflexivity _)) as Hpool.
  pose proof (markCorrect_marks guess secret (seedPool secret)) as Hmarks.
  destruct (markCorrect guess secret (seedPool secret)) as [marks pool]; simpl in *.
  destruct (markPresent_counts guess marks pool c Hmarks) as [Hc Hp].
  rewrite multiplicity_seedPool in Hpool. lia.
Qed.

End GameLogicFacts.


(** C2. For equal-length words S (secret) and G (guess), [evaluate G S]
    succeeds with one status per letter, and for every letter [c] the number
    of positions of the guess holding [c] that are marked [correct] or
    [present] is at most the multiplicity of [c] in the secret; the positions
    marked [present] are at most the copies of [c] that remain in the secret
    once the same-position matches are taken out. *)
Theorem evaluate_never_overcounts (G S : string) :
  strlen G = strlen S →
  ∃ result,
    GameLogic.evaluate G S = inr result
    ∧ length result = strlen G
    ∧ ∀ c : ascii,
        let g := chars (toUpperCase G) in
        let s := chars (toUpperCase S) in
        GameLogic.marked correct c g result + GameLogic.marked present c g result
          ≤ GameLogic.occurrences c s
        ∧ GameLogic.marked present c g result
          ≤ GameLogic.occurrences c s - GameLogic.marked correct c g result.
Proof.
  intros Hlen.
  assert (length (chars (toUpperCase G)) = length (chars (toUpperCase S))) as Hlen'.
  { fold (strlen (toUpperCase G)) (strlen (toUpperCase S)).
    by rewrite !strlen_toUpperCase. }
  exists (GameLogic.score (chars (toUpperCase G)) (chars (toUpperCase S))).
  split; [|split].
  - unfold GameLogic.evaluate. by rewrite decide_True.
  - rewrite GameLogicFacts.score_length by done.
    fold (strlen (toUpperCase G)). apply strlen_toUpperCase.
  - intros c g s.
    destruct (GameLogicFacts.score_counts g s c) as [Hp Hcp]. split; done.
Qed.

Lemma evaluate_never_overcounts_witness :
  strlen "ERASE" = strlen "SPEED"
  ∧ ∃ result,
      GameLogic.evaluate "ERASE" "SPEED" = inr result
      ∧ length result = strlen "ERASE"
      ∧ ∀ c : ascii,
          let g := chars (toUpperCase "ERASE") in
          let s := chars (toUpperCase "SPEED") in
          GameLogic.marked correct c g result + GameLogic.marked present c g result
            ≤ GameLogic.occurrences c s
          ∧ GameLogic.marked present c g result
            ≤ GameLogic.occurrences c s - GameLogic.marked correct c g result.
Proof. split; [reflexivity | apply (evaluate_never_overcounts "ERASE" "SPEED"); reflexivity]. Defined.

Example evaluate_ERASE_SPEED :
  GameLogic.evaluate "ERASE" "SPEED" = inr [present; absent; absent; present; present].
Proof. vm_compute. reflexivity. Qed.

Example evaluate_SLATE_CRANE :
  GameLogic.evaluate "SLATE" "CRANE" = inr [absent; absent; correct; absent; correct].
Proof. vm_compute. reflexivity. Qed.

(** ** Locked letters as a list of entries *)

Global Instance key_le_total : Total key_le.
Proof. intros a b. unfold key_le. lia. Qed.

Global Instance key_le_trans : Transitive key_le.
Proof. intros a b c. unfold key_le. lia. Qed.

Lemma entries_perm (locked : gmap nat string) : entries locked ≡ₚ map_to_list locked.
Proof. apply merge_sort_Permutation. Qed.

Lemma elem_of_entries (locked : gmap nat string) i l :
  (i, l) ∈ entries locked ↔ locked !! i = Some l.
Proof. rewrite entries_perm. apply elem_of_map_to_list. Qed.

Lemma length_entries (locked : gmap nat string) : length (entries locked) = size locked.
Proof. rewrite entries_perm. by rewrite length_map_to_list. Qed.

(** ** The keyboard never downgrades a letter *)

Section keyboard.
Context {logic : GameLogicLib}.

Lemma upgrade_lookup states L s K :
  upgrade states L s !! K
  = if decide (K = L) then Some (joinStatus (states !! L) s) else states !! K.
Proof.
  unfold upgrade, joinStatus.
  destruct s; repeat case_decide; simplify_map_eq; try done;
    destruct (states !! L) as [[]|] eqn:E; simplify_eq; try done; naive_solver.
Qed.

Lemma upgrade_insert_correct states L : <[L := correct]> states = upgrade states L correct.
Proof.
  apply map_eq; intros K. rewrite upgrade_lookup.
  case_decide; simplify_map_eq; done.
Qed.

Lemma joinStatus_rank old s :
  rank (Some (joinStatus old s)) = rank old `max` rank (Some s).
Proof. destruct s, old as [[]|]; done. Qed.

Lemma upgrade_comm states L1 s1 L2 s2 :
  upgrade (upgrade states L1 s1) L2 s2 = upgrade (upgrade states L2 s2) L1 s1.
Proof.
  apply map_eq; intros K. rewrite !upgrade_lookup.
  repeat case_decide; simplify_eq; try done.
  f_equal.
  match goal with |- context [states !! ?L] => destruct s1, s2, (states !! L) as [[]|] end;
    done.
Qed.

Lemma foldl_write_perm ws ws' :
  ws ≡ₚ ws' → ∀ states, foldl write states ws = foldl write states ws'.
Proof.
  induction 1 as [|w ws ws' _ IH|w1 w2 ws|ws1 ws2 ws3 _ IH1 _ IH2]; intros states; simpl.
  - done.
  - apply IH.
  - unfold write. by rewrite upgrade_comm.
  - by rewrite IH1, IH2.
Qed.

Lemma foldl_write_rank ws states L :
  rank (states !! L) ≤ rank (foldl write states ws !! L).
Proof.
  revert states. induction ws as [|w ws IH]; intros states; simpl; [done|].
  etrans; [|apply IH]. unfold write. rewrite upgrade_lookup.
  case_decide; [|done]. subst. rewrite joinStatus_rank. lia.
Qed.

Lemma rank_correct o : 3 ≤ rank o → o = Some correct.
Proof. destruct o as [[]|]; simpl; (done || lia). Qed.

Lemma rank_le_3 o : rank o ≤ 3.
Proof. destruct o as [[]|]; simpl; lia. Qed.

Lemma foldl_write_correct ws states L :
  (L, correct) ∈ ws → foldl write states ws !! L = Some correct.
Proof.
  revert states. induction ws as [|w ws IH]; intros states Hin; [by inversion Hin|].
  apply elem_of_cons in Hin as [<- | Hin]; simpl; [|by apply IH].
  apply rank_correct.
  etrans; [|apply (foldl_write_rank ws (write states (L, correct)) L)].
  unfold write; cbn [fst snd]. rewrite upgrade_lookup, decide_True by done. done.
Qed.

Lemma foldl_ext {A B} (f g : A → B → A) (l : list B) (a : A) :
  (∀ a b, f a b = g a b) → foldl f a l = foldl g a l.
Proof.
  intros Hfg. revert a. induction l as [|b l IH]; intros a; simpl; [done|].
  by rewrite Hfg, IH.
Qed.

Lemma foldl_omap {A B C} (f : C → B → C) (g : A → option B) (l : list A) (c : C) :
  foldl (λ c a, match g a with Some b => f c b | None => c end) c l
  = foldl f c (omap g l).
Proof.
  revert c. induction l as [|a l IH]; intros c; simpl; [done|].
  destruct (g a); simpl; apply IH.
Qed.

Lemma seedLocked_writes locked states :
  seedLocked locked states = foldl write states (lockedWrites locked).
Proof.
  unfold seedLocked, lockedWrites. rewrite <- foldl_omap.
  apply foldl_ext. intros st e. destruct (truthy e.2); [|done].
  apply upgrade_insert_correct.
Qed.

Lemma seedRevealed_writes secret revealed states :
  seedRevealed secret revealed states = foldl write states (revealedWrites secret revealed).
Proof.
  unfold seedRevealed, revealedWrites. rewrite <- foldl_omap.
  apply foldl_ext. intros st i. destruct (charAt secret i); [|done].
  apply upgrade_insert_correct.
Qed.

Lemma foldAttempt_writes secret attempt states :
  foldAttempt secret states attempt = foldl write states (attemptWrites secret attempt).
Proof.
  unfold foldAttempt, attemptWrites. rewrite <- foldl_omap.
  apply foldl_ext. intros st i.
  destruct (charAt attempt i); [|done]. by destruct (evaluateGuess attempt secret !! i).
Qed.

Lemma keyboardStep_writes gs states k :
  keyboardStep gs states k = foldl write states (stepWrites gs k).
Proof.
  destruct k; simpl;
    [apply seedLocked_writes | apply seedRevealed_writes | apply foldAttempt_writes].
Qed.

Lemma keyboardSteps_writes gs ks states :
  foldl (keyboardStep gs) states ks = foldl write states (mjoin (stepWrites gs <$> ks)).
Proof.
  revert states. induction ks as [|k ks IH]; intros states; simpl; [done|].
  by rewrite foldl_app, IH, keyboardStep_writes.
Qed.

Lemma keyboardLetterStates_steps gs :
  keyboardLetterStates gs
  = foldl (keyboardStep gs) ∅ (SeedLocked :: SeedRevealed :: (FoldAttempt <$> attempts gs)).
Proof.
  unfold keyboardLetterStates. simpl.
  generalize (seedRevealed (secretWord gs) (revealedLetters gs)
                (seedLocked (lockedLetters gs) ∅)).
  induction (attempts gs) as [|a l IH]; intros states; simpl; [done|]. apply IH.
Qed.

Lemma keyboardLetterStates_correct gs L k :
  k ∈ SeedLocked :: SeedRevealed :: (FoldAttempt <$> attempts gs) →
  (L, correct) ∈ stepWrites gs k →
  keyboardLetterStates gs !! L = Some correct.
Proof.
  intros Hk HL. rewrite keyboardLetterStates_steps, keyboardSteps_writes.
  apply foldl_write_correct. apply list_elem_of_join.
  exists (stepWrites gs k). split; [done|]. by apply list_elem_of_fmap_2.
Qed.

(** C9. The keyboard aggregation is the fold of its steps (seeding from the
    locked letters, seeding from the revealed letters, one step per attempt);
    no write and no step lowers the status of any letter in the precedence
    none < absent < present < correct, so a letter that is [correct] stays
    [correct] through any later steps; a letter seeded from a locked letter,
    from a lifeline-revealed letter of the secret, or evaluated [correct] in
    an attempt is [correct] in the result; and folding the same steps in any
    other order gives the same map. *)
Theorem keyboard_never_downgrades (gs : GameState) :
  keyboardLetterStates gs
    = foldl (keyboardStep gs) ∅ (SeedLocked :: SeedRevealed :: (FoldAttempt <$> attempts gs))
  ∧ (∀ states L s K, rank (states !! K) ≤ rank (upgrade states L s !! K))
  ∧ (∀ states k K, rank (states !! K) ≤ rank (keyboardStep gs states k !! K))
  ∧ (∀ states ks K,
       states !! K = Some correct → foldl (keyboardStep gs) states ks !! K = Some correct)
  ∧ (∀ i l,
       lockedLetters gs !! i = Some l → truthy l = true →
       keyboardLetterStates gs !! l = Some correct)
  ∧ (∀ i c,
       i ∈ revealedLetters gs → charAt (secretWord gs) i = Some c →
       keyboardLetterStates gs !! letter c = Some correct)
  ∧ (∀ attempt i c,
       attempt ∈ attempts gs → charAt attempt i = Some c →
       evaluateGuess attempt (secretWord gs) !! i = Some correct →
       keyboardLetterStates gs !! letter c = Some correct)
  ∧ (∀ ks ks' states,
       ks ≡ₚ ks' → foldl (keyboardStep gs) states ks = foldl (keyboardStep gs) states ks').
Proof.
  split_and!.
  - apply keyboardLetterStates_steps.
  - intros states L s K. apply (foldl_write_rank [(L, s)]).
  - intros states k K. rewrite keyboardStep_writes. apply foldl_write_rank.
  - intros states ks K HK. apply rank_correct.
    rewrite keyboardSteps_writes.
    etrans; [|apply foldl_write_rank]. by rewrite HK.
  - intros i l Hl Ht. apply (keyboardLetterStates_correct gs l SeedLocked); [set_solver|].
    simpl. unfold lockedWrites. apply list_elem_of_omap.
    exists (i, l). split; [by apply elem_of_entries|]. simpl. by rewrite Ht.
  - intros i c Hi Hc. apply (keyboardLetterStates_correct gs _ SeedRevealed); [set_solver|].
    simpl. unfold revealedWrites. apply list_elem_of_omap.
    exists i. split; [by apply elem_of_elements|]. by rewrite Hc.
  - intros attempt i c Ha Hc He.
    apply (keyboardLetterStates_correct gs _ (FoldAttempt attempt)).
    { do 2 apply list_elem_of_further. by apply list_elem_of_fmap_2. }
    simpl. unfold attemptWrites. apply list_elem_of_omap.
    exists i. split; [|by rewrite Hc, He].
    apply elem_of_seq. split; [lia|]. simpl.
    by apply lookup_lt_Some in Hc.
  - intros ks ks' states Hperm. rewrite !keyboardSteps_writes.
    apply foldl_write_perm. by rewrite Hperm.
Qed.

End keyboard.

(** ** The lifeline *)

Lemma floorRandomTimes_lt u n : 0 < n → floorRandomTimes u n < n.
Proof.
  intros Hn. unfold floorRandomTimes.
  pose proof (random_unit u) as Hu.
  apply Nat.Div0.div_lt_upper_bound. nia.
Qed.

Section reveal.
Implicit Types (gs : GameState) (u : Random).

Lemma unrevealedPositions_spec gs p :
  p ∈ filter (λ i, isLocked (lockedLetters gs) i = false ∧ Game.isPositionRevealed gs i = false)
             (seq 0 (wordLength gs))
  ↔ eligible gs p.
Proof.
  rewrite list_elem_of_filter, elem_of_seq. unfold eligible, Game.isPositionRevealed.
  rewrite bool_decide_eq_false. naive_solver lia.
Qed.

Lemma handleRevealLetter_cases u gs :
  Game.handleRevealLetter u gs = (gs, [])
  ∨ ∃ p, eligible gs p
         ∧ (0 < letterRevealsRemaining gs)%Z
         ∧ gameStatus gs = playing
         ∧ Game.handleRevealLetter u gs
           = (revealed gs p, [Game.ShowToast (Game.RevealedLetterAt (p + 1))]).
Proof.
  unfold Game.handleRevealLetter.
  destruct (bool_decide (letterRevealsRemaining gs ≤ 0)%Z) eqn:Hb; [by left|].
  destruct (bool_decide (gameStatus gs ≠ playing)) eqn:Hs; [by left|].
  simpl. apply bool_decide_eq_false in Hb, Hs.
  case_decide as Hlen; [|by left].
  destruct (_ !! _) as [p|] eqn:Hp; [|by left].
  right. exists p. split_and!; [|lia|by destruct (decide (gameStatus gs = playing))|done].
  apply unrevealedPositions_spec. by eapply list_elem_of_lookup_2.
Qed.

Lemma handleRevealLetter_noop u gs :
  (letterRevealsRemaining gs ≤ 0)%Z ∨ gameStatus gs ≠ playing ∨ (∀ p, ¬ eligible gs p) →
  Game.handleRevealLetter u gs = (gs, []).
Proof.
  intros Hno. destruct (handleRevealLetter_cases u gs) as [|(p & Hp & Hb & Hs & _)]; [done|].
  destruct Hno as [?|[?|Hno]]; [lia|done|]. by destruct (Hno p).
Qed.

Lemma handleRevealLetter_reveals u gs :
  (0 < letterRevealsRemaining gs)%Z → gameStatus gs = playing → (∃ p, eligible gs p) →
  ∃ p, eligible gs p
       ∧ Game.handleRevealLetter u gs
         = (revealed gs p, [Game.ShowToast (Game.RevealedLetterAt (p + 1))]).
Proof.
  intros Hb Hs [q Hq]. unfold Game.handleRevealLetter.
  rewrite bool_decide_eq_false_2 by lia.
  rewrite bool_decide_eq_false_2 by (intros ?; done). simpl.
  apply unrevealedPositions_spec in Hq.
  set (l := filter _ _) in *.
  assert (0 < length l) as Hlen by (destruct l; [by inversion Hq | simpl; lia]).
  rewrite decide_True by done.
  destruct (lookup_lt_is_Some_2 l (floorRandomTimes u (length l))) as [p Hp].
  { by apply floorRandomTimes_lt. }
  rewrite Hp. exists p. split; [|done].
  apply unrevealedPositions_spec. by eapply list_elem_of_lookup_2.
Qed.

Lemma size_revealed gs p :
  eligible gs p → size (revealedLetters (revealed gs p)) = S (size (revealedLetters gs)).
Proof.
  intros (_ & _ & Hp). simpl. rewrite size_union by set_solver.
  rewrite size_singleton. lia.
Qed.

Lemma Variant_handleRevealLetter u gs :
  (Variant.handleRevealLetter u gs).1 = (Game.handleRevealLetter u gs).1.
Proof.
  unfold Variant.handleRevealLetter, Game.handleRevealLetter.
  destruct (_ || _); [done|].
  assert (filter (λ i, Variant.isPositionRevealed gs i = false) (seq 0 (wordLength gs))
          = filter (λ i, isLocked (lockedLetters gs) i = false
                         ∧ Game.isPositionRevealed gs i = false) (seq 0 (wordLength gs))) as ->.
  { apply list_filter_iff. intros i. unfold Variant.isPositionRevealed, Game.isPositionRevealed.
    destruct (isLocked _ _); naive_solver. }
  case_decide; [|done]. by destruct (_ !! _).
Qed.

(** What a reveal leaves alone, and what it does to the budget. *)
Lemma handleRevealLetter_budget u gs :
  let gs' := (Game.handleRevealLetter u gs).1 in
  lockedLetters gs' = lockedLetters gs
  ∧ (letterRevealsRemaining gs' ≤ letterRevealsRemaining gs)%Z
  ∧ (0 ≤ letterRevealsRemaining gs → 0 ≤ letterRevealsRemaining gs')%Z
  ∧ (Z.of_nat (size (revealedLetters gs')) + letterRevealsRemaining gs'
     = Z.of_nat (size (revealedLetters gs)) + letterRevealsRemaining gs)%Z.
Proof.
  destruct (handleRevealLetter_cases u gs) as [-> | (p & Hp & Hb & Hs & ->)];
    cbn zeta; cbn [fst]; [split_and!; (done || lia)|].
  rewrite size_revealed by done. simpl. split_and!; (done || lia).
Qed.

End reveal.

(** ** Locking the correct letters *)

Lemma lockStep_lookup guess evaluation (newLocked : gmap nat string) n i :
  lockStep guess evaluation newLocked n !! i
  = if decide (i = n)
    then match evaluation !! n, charAt guess n with
         | Some correct, Some c => Some (letter c)
         | _, _ => newLocked !! n
         end
    else newLocked !! i.
Proof.
  unfold lockStep. destruct (decide (i = n)) as [->|Hi].
  - destruct (decide (evaluation !! n = Some correct)) as [He|He].
    + rewrite He. destruct (charAt guess n); [by rewrite lookup_insert_eq | done].
    + destruct (evaluation !! n) as [[]|]; first [done | by destruct He].
  - destruct (decide (evaluation !! n = Some correct)); [|done].
    destruct (charAt guess n); [|done]. by rewrite lookup_insert_ne.
Qed.

Lemma lockCorrect_lookup guess evaluation (locked : gmap nat string) i :
  lockCorrect guess evaluation locked !! i
  = match evaluation !! i, charAt guess i with
    | Some correct, Some c => Some (letter c)
    | _, _ => locked !! i
    end.
Proof.
  unfold lockCorrect.
  assert (∀ n, foldl (lockStep guess evaluation) locked (seq 0 n) !! i
               = if decide (i < n)
                 then match evaluation !! i, charAt guess i with
                      | Some correct, Some c => Some (letter c)
                      | _, _ => locked !! i
                      end
                 else locked !! i) as Hn.
  { induction n as [|n IH]; [done|].
    rewrite seq_S, foldl_app. simpl. rewrite lockStep_lookup.
    destruct (decide (i = n)) as [->|Hi]; rewrite IH;
      repeat case_decide; try lia; done. }
  rewrite Hn. case_decide as Hi; [done|].
  rewrite lookup_ge_None_2 by lia. done.
Qed.



Lemma allCorrect_spec evaluation :
  allCorrect evaluation = true ↔ ∀ s, s ∈ evaluation → s = correct.
Proof.
  unfold allCorrect. rewrite forallb_forall. split.
  - intros Hall s Hs. apply list_elem_of_In in Hs. by apply Hall, bool_decide_eq_true in Hs.
  - intros Hall s Hs. apply bool_decide_eq_true, Hall. by apply list_elem_of_In.
Qed.

(** ** Submitting a guess *)

Section submit.
Context {logic : GameLogicLib} {config : GameConfig}.
Variables (settings : GameSettings) (query : RouterQuery).
Variables (dictionary : gset string) (today : string).

Lemma Game_handleSubmit_not_playing (c : Game.Component) :
  gameStatus (Game.gameState c) ≠ playing →
  Game.handleSubmit settings query dictionary today c = (c, []).
Proof. intros Hs. unfold Game.handleSubmit. by rewrite bool_decide_eq_true_2. Qed.

Lemma Variant_handleSubmit_not_playing (v : Variant.Component) :
  gameStatus (Variant.gameState v) ≠ playing →
  Variant.handleSubmit settings query dictionary today v = (v, []).
Proof. intros Hs. unfold Variant.handleSubmit. by rewrite bool_decide_eq_true_2. Qed.

Lemma Game_submit_valid (c : Game.Component) :
  let gs := Game.gameState c in
  let guess := completeGuess gs (Game.currentGuess c) in
  let evaluation := evaluateGuess guess (secretWord gs) in
  let gs' := Game.gameState (Game.handleSubmit settings query dictionary today c).1 in
  gameStatus gs = playing → validateGuess guess (wordLength gs) = true → guess ∈ dictionary →
  attempts gs' = (attempts gs ++ [guess])%list
  ∧ attemptIndex gs' = (attemptIndex gs + 1)%Z
  ∧ lockedLetters gs' = lockCorrect guess evaluation (lockedLetters gs)
  ∧ gameStatus gs'
    = (if allCorrect evaluation then won
       else if bool_decide (Game.adjustedMaxGuesses settings gs ≤ attemptIndex gs + 1)%Z
            then lost else playing)
  ∧ wordLength gs' = wordLength gs
  ∧ secretWord gs' = secretWord gs
  ∧ clue gs' = clue gs
  ∧ revealedLetters gs' = revealedLetters gs
  ∧ letterRevealsRemaining gs' = letterRevealsRemaining gs.
Proof.
  intros gs guess evaluation gs' Hs Hv Hd. subst gs'. unfold Game.handleSubmit.
  fold gs. fold guess. rewrite bool_decide_eq_false_2 by (by rewrite Hs; intros []).
  rewrite Hv. simpl. rewrite bool_decide_eq_false_2 by (by intros []).
  simpl. done.
Qed.

Lemma Variant_submit_valid (v : Variant.Component) :
  let gs := Variant.gameState v in
  let guess := completeGuess gs (Variant.currentGuess v) in
  let evaluation := evaluateGuess guess (secretWord gs) in
  let gs' := Variant.gameState (Variant.handleSubmit settings query dictionary today v).1 in
  let gs'' := Variant.gameState (Variant.submitAndFlip settings query dictionary today v) in
  gameStatus gs = playing → validateGuess guess (wordLength gs) = true → guess ∈ dictionary →
  attempts gs' = (attempts gs ++ [guess])%list
  ∧ attemptIndex gs' = (attemptIndex gs + 1)%Z
  ∧ lockedLetters gs' = lockedLetters gs
  ∧ gameStatus gs'
    = (if allCorrect evaluation then won
       else if bool_decide (maxGuesses settings ≤ attemptIndex gs + 1)%Z
            then lost else playing)
  ∧ wordLength gs' = wordLength gs
  ∧ secretWord gs' = secretWord gs
  ∧ clue gs' = clue gs
  ∧ revealedLetters gs' = revealedLetters gs
  ∧ letterRevealsRemaining gs' = letterRevealsRemaining gs
  ∧ gs'' = Variant.setLockedLetters gs'
             (if lockGreenMatchedLetters settings
              then lockCorrect guess evaluation (lockedLetters gs)
              else lockedLetters gs).
Proof.
  intros gs guess evaluation gs' gs'' Hs Hv Hd. subst gs' gs''.
  unfold Variant.submitAndFlip, Variant.handleSubmit.
  fold gs. fold guess. rewrite bool_decide_eq_false_2 by (by rewrite Hs; intros []).
  rewrite Hv. simpl. rewrite bool_decide_eq_false_2 by (by intros []).
  simpl. split_and!; try done.
  by destruct (isArchivePuzzle query).
Qed.

End submit.

(** ** Locked letters only grow *)



Section locked.
Context {logic : GameLogicLib} {config : GameConfig}.
Variables (settings : GameSettings) (query : RouterQuery).
Variables (dictionary : gset string) (today : string).






(** What [handleSubmit] can do to the locked letters. *)
Lemma Game_handleSubmit_locked (c : Game.Component) :
  let gs := Game.gameState c in
  let guess := completeGuess gs (Game.currentGuess c) in
  let gs' := Game.gameState (Game.handleSubmit settings query dictionary today c).1 in
  (gs' = gs)
  ∨ (validateGuess guess (wordLength gs) = true
     ∧ lockedLetters gs'
       = lockCorrect guess (evaluateGuess guess (secretWord gs)) (lockedLetters gs)
     ∧ revealedLetters gs' = revealedLetters gs
     ∧ letterRevealsRemaining gs' = letterRevealsRemaining gs).
Proof.
  intros gs guess gs'. subst gs'. unfold Game.handleSubmit. fold gs. fold guess.
  case_bool_decide; [by left|].
  destruct (validateGuess guess (wordLength gs)) eqn:Hv; simpl; [|by left].
  case_bool_decide; [by left|]. right. done.
Qed.

Lemma Variant_submitAndFlip_locked (v : Variant.Component) :
  let gs := Variant.gameState v in
  let guess := completeGuess gs (Variant.currentGuess v) in
  let gs' := Variant.gameState (Variant.submitAndFlip settings query dictionary today v) in
  (gs' = gs)
  ∨ (validateGuess guess (wordLength gs) = true
     ∧ (lockedLetters gs' = lockedLetters gs
        ∨ lockedLetters gs'
          = lockCorrect guess (evaluateGuess guess (secretWord gs)) (lockedLetters gs))
     ∧ revealedLetters gs' = revealedLetters gs
     ∧ letterRevealsRemaining gs' = letterRevealsRemaining gs).
Proof.
  intros gs guess gs'. subst gs'. unfold Variant.submitAndFlip, Variant.handleSubmit.
  fold gs. fold guess.
  case_bool_decide; [by left|].
  destruct (validateGuess guess (wordLength gs)) eqn:Hv; simpl; [|by left].
  case_bool_decide; [by left|]. right.
  split; [done|]. destruct (isArchivePuzzle query), (lockGreenMatchedLetters settings);
    simpl; auto.
Qed.











(** *** The reveal budget over a game *)

Lemma budgetKept_refl gs : budgetKept gs gs.
Proof. unfold budgetKept. lia. Qed.

Lemma budgetKept_same gs0 gs gs' :
  budgetKept gs0 gs →
  revealedLetters gs' = revealedLetters gs →
  letterRevealsRemaining gs' = letterRevealsRemaining gs →
  budgetKept gs0 gs'.
Proof. unfold budgetKept. intros Hg -> ->. done. Qed.

Lemma budgetKept_reveal gs0 gs u :
  budgetKept gs0 gs → budgetKept gs0 (Game.handleRevealLetter u gs).1.
Proof.
  unfold budgetKept. intros (H1 & H2 & H3).
  destruct (handleRevealLetter_budget u gs) as (_ & H4 & H5 & H6). lia.
Qed.

Lemma Game_step_budget gs0 (c : Game.Component) (e : Game.Event) :
  budgetKept gs0 (Game.gameState c) →
  budgetKept gs0 (Game.gameState (Game.step settings query dictionary today c e)).
Proof.
  intros Hg. destruct e as [typed|u]; simpl in *.
  - match goal with |- context [Game.handleSubmit _ _ _ _ ?c0] =>
      destruct (Game_handleSubmit_locked c0) as [-> | (_ & _ & Hr & Hb)] end; [done|].
    by eapply budgetKept_same.
  - by apply budgetKept_reveal.
Qed.

Lemma Variant_step_budget gs0 (v : Variant.Component) (e : Variant.Event) :
  budgetKept gs0 (Variant.gameState v) →
  budgetKept gs0 (Variant.gameState (Variant.step settings query dictionary today v e)).
Proof.
  intros Hg. destruct e as [typed|u]; simpl in *.
  - match goal with |- context [Variant.submitAndFlip _ _ _ _ ?c0] =>
      destruct (Variant_submitAndFlip_locked c0) as [-> | (_ & _ & Hr & Hb)] end; [done|].
    by eapply budgetKept_same.
  - rewrite Variant_handleRevealLetter. by apply budgetKept_reveal.
Qed.

Lemma Game_run_budget (c : Game.Component) (events : list Game.Event) :
  budgetKept (Game.gameState c)
             (Game.gameState (Game.run settings query dictionary today c events)).
Proof.
  unfold Game.run. generalize (budgetKept_refl (Game.gameState c)).
  generalize (Game.gameState c) at 1 3. intros gs0 Hg. revert c Hg.
  induction events as [|e events IH]; intros c Hg; simpl; [done|].
  apply IH. by apply Game_step_budget.
Qed.

Lemma Variant_run_budget (v : Variant.Component) (events : list Variant.Event) :
  budgetKept (Variant.gameState v)
             (Variant.gameState (Variant.run settings query dictionary today v events)).
Proof.
  unfold Variant.run. generalize (budgetKept_refl (Variant.gameState v)).
  generalize (Variant.gameState v) at 1 3. intros gs0 Hg. revert v Hg.
  induction events as [|e events IH]; intros v Hg; simpl; [done|].
  apply IH. by apply Variant_step_budget.
Qed.

End locked.

(** ** The state machine of the game *)

Section engine.
Context {logic : GameLogicLib} {config : GameConfig}.
Variables (settings : GameSettings) (query : RouterQuery).
Variables (dictionary : gset string) (today : string).

(** C1 (as the code has it). For a valid guess (complete and in the
    dictionary) submitted while the game is playing, [handleSubmit] of
    Game.tsx appends the complete guess to the attempts, adds 1 to the attempt
    index, sets the locked letter of every position evaluated [correct] to
    the guessed letter and leaves the other positions alone, and sets the
    status to [won] if every position is [correct], else to [lost] if the new
    attempt index reaches [adjustedMaxGuesses] (not [maxGuesses]), else leaves
    it [playing].  In the flip-animation variant the limit is
    [settings.maxGuesses]; the submission itself leaves the locked letters
    alone, and the flip timer locks the correct positions only if
    [lockGreenMatchedLetters] is set. *)
Theorem valid_guess_is_recorded (c : Game.Component) (v : Variant.Component) :
  (let gs := Game.gameState c in
   let guess := completeGuess gs (Game.currentGuess c) in
   let evaluation := evaluateGuess guess (secretWord gs) in
   let gs' := Game.gameState (Game.handleSubmit settings query dictionary today c).1 in
   gameStatus gs = playing → validateGuess guess (wordLength gs) = true → guess ∈ dictionary →
   attempts gs' = (attempts gs ++ [guess])%list
   ∧ attemptIndex gs' = (attemptIndex gs + 1)%Z
   ∧ (∀ i, evaluation !! i = Some correct →
           ∃ ch, charAt guess i = Some ch ∧ lockedLetters gs' !! i = Some (letter ch))
   ∧ (∀ i, evaluation !! i ≠ Some correct → lockedLetters gs' !! i = lockedLetters gs !! i)
   ∧ gameStatus gs'
     = (if allCorrect evaluation then won
        else if bool_decide (Game.adjustedMaxGuesses settings gs ≤ attemptIndex gs + 1)%Z
             then lost else playing)
   ∧ (allCorrect evaluation = true ↔ ∀ s, s ∈ evaluation → s = correct))
  ∧
  (let gs := Variant.gameState v in
   let guess := completeGuess gs (Variant.currentGuess v) in
   let evaluation := evaluateGuess guess (secretWord gs) in
   let gs' := Variant.gameState (Variant.handleSubmit settings query dictionary today v).1 in
   let gs'' := Variant.gameState (Variant.submitAndFlip settings query dictionary today v) in
   gameStatus gs = playing → validateGuess guess (wordLength gs) = true → guess ∈ dictionary →
   attempts gs' = (attempts gs ++ [guess])%list
   ∧ attemptIndex gs' = (attemptIndex gs + 1)%Z
   ∧ lockedLetters gs' = lockedLetters gs
   ∧ gameStatus gs'
     = (if allCorrect evaluation then won
        else if bool_decide (maxGuesses settings ≤ attemptIndex gs + 1)%Z
             then lost else playing)
   ∧ attempts gs'' = attempts gs' ∧ attemptIndex gs'' = attemptIndex gs'
   ∧ gameStatus gs'' = gameStatus gs'
   ∧ (lockGreenMatchedLetters settings = false → lockedLetters gs'' = lockedLetters gs)
   ∧ (lockGreenMatchedLetters settings = true →
      (∀ i, evaluation !! i = Some correct →
            ∃ ch, charAt guess i = Some ch ∧ lockedLetters gs'' !! i = Some (letter ch))
      ∧ (∀ i, evaluation !! i ≠ Some correct →
              lockedLetters gs'' !! i = lockedLetters gs !! i))).
Proof.
  assert (∀ guess secret (locked : gmap nat string),
    (∀ i, evaluateGuess guess secret !! i = Some correct →
          ∃ ch, charAt guess i = Some ch
                ∧ lockCorrect guess (evaluateGuess guess secret) locked !! i = Some (letter ch))
    ∧ (∀ i, evaluateGuess guess secret !! i ≠ Some correct →
            lockCorrect guess (evaluateGuess guess secret) locked !! i = locked !! i))
    as Hlock.
  { intros guess secret locked. split; intros i Hi; rewrite lockCorrect_lookup.
    - rewrite Hi.
      destruct (lookup_lt_is_Some_2 (chars guess) i) as [ch Hch].
      { apply lookup_lt_Some in Hi.
        pose proof (evaluateGuess_bound guess secret). unfold strlen in *. lia. }
      unfold charAt. rewrite Hch. eauto.
    - destruct (evaluateGuess guess secret !! i) as [[]|]; done. }
  split.
  - intros gs guess evaluation gs' Hs Hv Hd.
    destruct (Game_submit_valid settings query dictionary today c Hs Hv Hd)
      as (Ha & Hi & Hl & Hst & _).
    fold gs guess evaluation gs' in Ha, Hi, Hl, Hst.
    split_and!; try done.
    + intros i. rewrite Hl. apply Hlock.
    + intros i. rewrite Hl. apply Hlock.
    + apply allCorrect_spec.
  - intros gs guess evaluation gs' gs'' Hs Hv Hd.
    destruct (Variant_submit_valid settings query dictionary today v Hs Hv Hd)
      as (Ha & Hi & Hl & Hst & _ & _ & _ & _ & _ & Hflip).
    fold gs guess evaluation gs' gs'' in Ha, Hi, Hl, Hst, Hflip.
    split_and!; try done; try (by rewrite Hflip).
    + intros Hg. rewrite Hflip, Hg. done.
    + intros Hg. rewrite Hflip, Hg. simpl. apply Hlock.
Qed.

(** C3 (as the code has it). A guess that is incomplete or not in the
    dictionary, submitted while the game is playing, leaves the game state
    (attempts, attempt index, locked letters, revealed letters, status, reveal
    budget) as it is and records no result.  An incomplete guess only sets the
    error message.  A guess that is not in the dictionary sets the error
    message and the shake and force-clear flags, and resets the input row to
    the locked letters.  The timers that the handler sets clear the message
    and the two flags again. *)
Theorem invalid_guess_is_not_recorded (c : Game.Component) (v : Variant.Component) :
  (let gs := Game.gameState c in
   let guess := completeGuess gs (Game.currentGuess c) in
   let r := Game.handleSubmit settings query dictionary today c in
   gameStatus gs = playing →
   (validateGuess guess (wordLength gs) = false →
    r = ({| Game.gameState := gs;
            Game.currentGuess := Game.currentGuess c;
            Game.clueError := Some "Please enter a complete word";
            Game.isShaking := Game.isShaking c;
            Game.forceClear := Game.forceClear c |},
         [Game.SetTimeout Game.ClearClueError 1000]))
   ∧ (validateGuess guess (wordLength gs) = true → guess ∉ dictionary →
      r = ({| Game.gameState := gs;
              Game.currentGuess := lockedRow (wordLength gs) (lockedLetters gs);
              Game.clueError := Some "Not in dictionary";
              Game.isShaking := true;
              Game.forceClear := true |},
           [Game.SetTimeout Game.ClearClueError 1000;
            Game.SetTimeout Game.StopShaking 500;
            Game.SetTimeout Game.EndForceClear 100])))
  ∧
  (let gs := Variant.gameState v in
   let guess := completeGuess gs (Variant.currentGuess v) in
   let r := Variant.handleSubmit settings query dictionary today v in
   gameStatus gs = playing →
   (validateGuess guess (wordLength gs) = false →
    r = ({| Variant.gameState := gs;
            Variant.currentGuess := Variant.currentGuess v;
            Variant.clueError := Some "Not enough letters";
            Variant.isShaking := Variant.isShaking v;
            Variant.forceClear := Variant.forceClear v;
            Variant.flippingRows := Variant.flippingRows v;
            Variant.showFadeInForInput := Variant.showFadeInForInput v;
            Variant.fadeOutClearInput := Variant.fadeOutClearInput v;
            Variant.previouslyRevealedPositions := Variant.previouslyRevealedPositions v |},
         [Variant.SetTimeout Variant.ClearClueError 1500]))
   ∧ (validateGuess guess (wordLength gs) = true → guess ∉ dictionary →
      r = ({| Variant.gameState := gs;
              Variant.currentGuess := lockedRow (wordLength gs) (lockedLetters gs);
              Variant.clueError := Some "Not in the valid word list!";
              Variant.isShaking := true;
              Variant.forceClear := true;
              Variant.flippingRows := Variant.flippingRows v;
              Variant.showFadeInForInput := Variant.showFadeInForInput v;
              Variant.fadeOutClearInput := Variant.fadeOutClearInput v;
              Variant.previouslyRevealedPositions := Variant.previouslyRevealedPositions v |},
           [Variant.SetTimeout Variant.ClearClueError 1500;
            Variant.SetTimeout Variant.StopShaking 500;
            Variant.SetTimeout Variant.EndForceClear 100])))
  ∧ Game.clueError (Game.fire Game.ClearClueError c).1 = None
  ∧ Game.isShaking (Game.fire Game.StopShaking c).1 = false
  ∧ Game.forceClear (Game.fire Game.EndForceClear c).1 = false
  ∧ Variant.clueError (Variant.fire Variant.ClearClueError v).1 = None
  ∧ Variant.isShaking (Variant.fire Variant.StopShaking v).1 = false
  ∧ Variant.forceClear (Variant.fire Variant.EndForceClear v).1 = false.
Proof.
  split_and!; try done.
  - intros gs guess r Hs. subst r. unfold Game.handleSubmit. fold gs. fold guess.
    rewrite bool_decide_eq_false_2 by (by rewrite Hs; intros []).
    split.
    + by intros ->.
    + intros -> Hd. simpl. by rewrite bool_decide_eq_true_2.
  - intros gs guess r Hs. subst r. unfold Variant.handleSubmit. fold gs. fold guess.
    rewrite bool_decide_eq_false_2 by (by rewrite Hs; intros []).
    split.
    + by intros ->.
    + intros -> Hd. simpl. by rewrite bool_decide_eq_true_2.
Qed.


(** C5. The reveal budget of a fresh game, and of a puzzle that has just been
    loaded, is 1.  [handleRevealLetter] leaves
    the state as it is when the budget is 0 or less, when the game is not
    playing, or when no position is eligible (neither locked nor revealed);
    otherwise it adds exactly one eligible position to the revealed letters
    and takes 1 off the budget, whatever [Math.random()] draws.  Both variants
    of the component agree on it.  Over a game (submissions and lifeline
    calls) the budget never grows, and every position revealed costs one unit
    of it: with a budget of 1, the call after a successful one does nothing,
    and at most one position is ever revealed. *)
Theorem lifeline_reveal_is_budgeted (u u' : Random) (gs : GameState)
  (c : Game.Component) (events : list Game.Event)
  (v : Variant.Component) (variantEvents : list Variant.Event) :
  letterRevealsRemaining initialGameState = 1%Z
  ∧ (∀ prev n word puzzleClue locked,
       letterRevealsRemaining (Game.puzzleLoaded prev n word puzzleClue locked) = 1%Z
       ∧ letterRevealsRemaining (Variant.puzzleLoaded prev n word puzzleClue locked) = 1%Z)
  ∧ ((letterRevealsRemaining gs ≤ 0)%Z ∨ gameStatus gs ≠ playing ∨ (∀ p, ¬ eligible gs p) →
     Game.handleRevealLetter u gs = (gs, []))
  ∧ ((0 < letterRevealsRemaining gs)%Z → gameStatus gs = playing → (∃ p, eligible gs p) →
     ∃ p, eligible gs p
          ∧ Game.handleRevealLetter u gs
            = (revealed gs p, [Game.ShowToast (Game.RevealedLetterAt (p + 1))])
          ∧ revealedLetters (revealed gs p) = revealedLetters gs ∪ {[ p ]}
          ∧ size (revealedLetters (revealed gs p)) = S (size (revealedLetters gs))
          ∧ letterRevealsRemaining (revealed gs p) = (letterRevealsRemaining gs - 1)%Z)
  ∧ (Variant.handleRevealLetter u gs).1 = (Game.handleRevealLetter u gs).1
  ∧ (letterRevealsRemaining gs = 1%Z →
     Game.handleRevealLetter u' (Game.handleRevealLetter u gs).1
     = ((Game.handleRevealLetter u gs).1, [])
     ∨ (Game.handleRevealLetter u gs).1 = gs)
  ∧ budgetKept (Game.gameState c)
               (Game.gameState (Game.run settings query dictionary today c events))
  ∧ budgetKept (Variant.gameState v)
               (Variant.gameState
                  (Variant.run settings query dictionary today v variantEvents))
  ∧ (letterRevealsRemaining (Game.gameState c) = 1%Z →
     size (revealedLetters
             (Game.gameState (Game.run settings query dictionary today c events)))
     ≤ size (revealedLetters (Game.gameState c)) + 1).
Proof.
  split_and!.
  - done.
  - done.
  - apply handleRevealLetter_noop.
  - intros Hb Hs He.
    destruct (handleRevealLetter_reveals u gs Hb Hs He) as (p & Hp & Heq).
    exists p. split_and!; try done. by apply size_revealed.
  - apply Variant_handleRevealLetter.
  - intros Hb.
    destruct (handleRevealLetter_cases u gs) as [-> | (p & Hp & _ & _ & ->)]; [by right|].
    left. apply handleRevealLetter_noop. left. simpl. lia.
  - apply Game_run_budget.
  - apply Variant_run_budget.
  - intros Hb.
    destruct (Game_run_budget settings query dictionary today c events) as (H1 & H2 & H3).
    lia.
Qed.

(** [recordResult] is called for every valid guess, unless the puzzle is an
    archive puzzle; the random-puzzle setting is passed on but does not stop
    the call. *)
Lemma recordResult_unless_archive (c : Game.Component) :
  let gs := Game.gameState c in
  let guess := completeGuess gs (Game.currentGuess c) in
  let effects := (Game.handleSubmit settings query dictionary today c).2 in
  gameStatus gs = playing → validateGuess guess (wordLength gs) = true → guess ∈ dictionary →
  (isArchivePuzzle query = true → ∀ result limit, Game.RecordResult result limit ∉ effects)
  ∧ (isArchivePuzzle query = false →
     ∃ result limit,
       Game.RecordResult result limit ∈ effects
       ∧ mode_randomPuzzle (mode result) = randomPuzzle settings).
Proof.
  intros gs guess effects Hs Hv Hd. subst effects. unfold Game.handleSubmit.
  fold gs. fold guess. rewrite bool_decide_eq_false_2 by (by rewrite Hs; intros []).
  rewrite Hv. simpl. rewrite bool_decide_eq_false_2 by (by intros []).
  simpl. split; intros ->; simpl.
  - intros result limit Hin. apply list_elem_of_singleton in Hin. done.
  - eexists _, _. split; [apply list_elem_of_here|]. done.
Qed.

End engine.

(** ** The sample game *)

Section sample.
Import Sample.
Existing Instance Sample.config.


(** C1, the claim as stated fails.  With six guesses allowed, no clue and one
    letter locked, [adjustedMaxGuesses] is 7: the sixth wrong guess of Game.tsx
    takes the attempt index to [maxGuesses] and the game is still [playing].
    With [lockGreenMatchedLetters] off, the variant evaluates the third
    position [correct] and never locks it. *)
Lemma reaching_maxGuesses_is_not_lost :
  (let c := component fifth ["S"; "L"; ""; "T"; "E"] in
   let gs := Game.gameState c in
   let guess := completeGuess gs (Game.currentGuess c) in
   let gs' := Game.gameState (Game.handleSubmit settings query dictionary today c).1 in
   gameStatus gs = playing
   ∧ validateGuess guess (wordLength gs) = true
   ∧ guess ∈ dictionary
   ∧ allCorrect (evaluateGuess guess (secretWord gs)) = false
   ∧ attemptIndex gs' = maxGuesses settings
   ∧ gameStatus gs' ≠ lost)
  ∧
  (let v := variantComponent fresh ["S"; "L"; "A"; "T"; "E"] in
   let gs := Variant.gameState v in
   let guess := completeGuess gs (Variant.currentGuess v) in
   let gs'' :=
     Variant.gameState (Variant.submitAndFlip unlockedSettings query dictionary today v) in
   gameStatus gs = playing
   ∧ validateGuess guess (wordLength gs) = true
   ∧ guess ∈ dictionary
   ∧ evaluateGuess guess (secretWord gs) !! 2 = Some correct
   ∧ lockedLetters gs'' !! 2 = None).
Proof. vm_compute. split_and!; try reflexivity; discriminate. Qed.

Lemma valid_guess_is_recorded_witness :
  let c := component fifth ["S"; "L"; ""; "T"; "E"] in
  let gs' := Game.gameState (Game.handleSubmit settings query dictionary today c).1 in
  attempts gs' = ["BRAND"; "BRAND"; "BRAND"; "BRAND"; "BRAND"; "SLATE"]
  ∧ attemptIndex gs' = 6%Z
  ∧ lockedLetters gs' !! 4 = Some "E"
  ∧ lockedLetters gs' !! 0 = None
  ∧ gameStatus gs' = playing.
Proof.
  intros c gs'. subst gs'.
  destruct (valid_guess_is_recorded settings query dictionary today c
              (variantComponent fresh [])) as [Hgame _].
  destruct Hgame as (Ha & Hi & Hc & Hn & Hs & _);
    [reflexivity | reflexivity | vm_compute; reflexivity |].
  split_and!.
  - exact Ha.
  - exact Hi.
  - destruct (Hc 4) as (ch & Hch & Hl); [reflexivity|].
    vm_compute in Hch. injection Hch as <-. exact Hl.
  - rewrite (Hn 0); [reflexivity | vm_compute; discriminate].
  - exact Hs.
Defined.

(** C3, the claim as stated fails.  A complete guess that is not in the
    dictionary leaves the game state alone, but it clears the typed letters
    from the input row and raises the shake and force-clear flags besides the
    error message. *)
Lemma unknown_word_clears_the_row :
  let c := component fresh ["Z"; "Z"; "Z"; "Z"; "Z"] in
  let gs := Game.gameState c in
  let guess := completeGuess gs (Game.currentGuess c) in
  let c' := (Game.handleSubmit settings query dictionary today c).1 in
  gameStatus gs = playing
  ∧ validateGuess guess (wordLength gs) = true
  ∧ (guess ∉ dictionary)
  ∧ Game.gameState c' = gs
  ∧ Game.clueError c' = Some "Not in dictionary"
  ∧ Game.currentGuess c = ["Z"; "Z"; "Z"; "Z"; "Z"]
  ∧ Game.currentGuess c' = [""; ""; ""; ""; ""]
  ∧ Game.currentGuess c' ≠ Game.currentGuess c
  ∧ Game.isShaking c = false ∧ Game.isShaking c' = true
  ∧ Game.forceClear c = false ∧ Game.forceClear c' = true.
Proof. vm_compute. split_and!; try reflexivity; discriminate. Qed.

Lemma invalid_guess_is_not_recorded_witness :
  let c := component fresh ["Z"; "Z"; "Z"; "Z"; "Z"] in
  let short := component fresh ["Z"; "Z"] in
  Game.gameState (Game.handleSubmit settings query dictionary today c).1 = fresh
  ∧ Game.gameState (Game.handleSubmit settings query dictionary today short).1 = fresh
  ∧ (Game.handleSubmit settings query dictionary today short).2
    = [Game.SetTimeout Game.ClearClueError 1000].
Proof.
  intros c short.
  destruct (invalid_guess_is_not_recorded settings query dictionary today c
              (variantComponent fresh [])) as ((_ & Hunknown) & _); [reflexivity|].
  destruct (invalid_guess_is_not_recorded settings query dictionary today short
              (variantComponent fresh [])) as ((Hshort & _) & _); [reflexivity|].
  rewrite Hunknown; [|reflexivity | vm_compute; discriminate].
  rewrite Hshort; [|reflexivity].
  split_and!; reflexivity.
Defined.


Lemma lifeline_reveal_is_budgeted_witness :
  (0 < letterRevealsRemaining fifth)%Z
  ∧ gameStatus fifth = playing
  ∧ eligible fifth 3
  ∧ (∃ p, eligible fifth p
          ∧ (Game.handleRevealLetter half fifth).1 = revealed fifth p
          ∧ letterRevealsRemaining (revealed fifth p) = 0%Z)
  ∧ Game.handleRevealLetter half (Game.handleRevealLetter half fifth).1
    = ((Game.handleRevealLetter half fifth).1, []).
Proof.
  assert (eligible fifth 3) as Hel.
  { split_and!; [vm_compute; lia | reflexivity | vm_compute; discriminate]. }
  destruct (lifeline_reveal_is_budgeted settings query dictionary today half half fifth
              (component fifth []) [] (variantComponent fresh []) [])
    as (_ & _ & _ & Hreveal & _ & Hnext & _).
  split_and!.
  - reflexivity.
  - reflexivity.
  - exact Hel.
  - destruct Hreveal as (p & Hp & Heq & _ & _ & Hb); [reflexivity | reflexivity | by exists 3 |].
    exists p. rewrite Heq. split_and!; [exact Hp | reflexivity | exact Hb].
  - destruct (Hnext eq_refl) as [Hdone | Hsame]; [exact Hdone|].
    vm_compute in Hsame. discriminate.
Defined.

Lemma keyboard_never_downgrades_witness :
  let won :=
    Game.gameState
      (Game.run settings query dictionary today (component fresh [])
         [Game.Submit ["S"; "L"; "A"; "T"; "E"]; Game.Submit ["C"; "R"; ""; "N"; ""]]) in
  attempts won = ["SLATE"; "CRANE"]
  ∧ keyboardLetterStates won !! "E" = Some correct
  ∧ keyboardLetterStates won !! "S" = Some absent
  ∧ foldl (keyboardStep won) ∅
      [FoldAttempt "CRANE"; SeedRevealed; FoldAttempt "SLATE"; SeedLocked]
    = keyboardLetterStates won.
Proof.
  intros won.
  destruct (keyboard_never_downgrades won) as (Hsteps & _ & _ & _ & Hlocked & _ & _ & Hperm).
  split_and!.
  - reflexivity.
  - apply (Hlocked 4 "E"); reflexivity.
  - vm_compute. reflexivity.
  - rewrite Hsteps. apply Hperm.
    change (FoldAttempt <$> attempts won) with [FoldAttempt "SLATE"; FoldAttempt "CRANE"].
    etrans;
      [symmetry;
       apply (Permutation_cons_append
                [FoldAttempt "CRANE"; SeedRevealed; FoldAttempt "SLATE"] SeedLocked)|].
    apply perm_skip.
    apply (Permutation_cons_append [SeedRevealed; FoldAttempt "SLATE"] (FoldAttempt "CRANE")).
Defined.

(** C8, what the code does.  In random mode, on a page that is not an archive
    page, a valid guess makes [handleSubmit] call [recordResult], passing the
    random-puzzle flag along; so do both variants of the component. *)
Theorem recordResult_is_called_in_random_mode :
  let c := component fresh ["S"; "L"; "A"; "T"; "E"] in
  let v := variantComponent fresh ["S"; "L"; "A"; "T"; "E"] in
  let result :=
    {| dateISO := today;
       result_wordLength := 5;
       result_won := false;
       guesses := 6;
       solution := "CRANE";
       mode := {| mode_revealVowels := false;
                  mode_vowelCount := 0;
                  mode_revealClue := true;
                  mode_randomPuzzle := true |} |} in
  randomPuzzle randomSettings = true
  ∧ isArchivePuzzle query = false
  ∧ Game.RecordResult result 6
    ∈ (Game.handleSubmit randomSettings query dictionary today c).2
  ∧ Variant.RecordResult result 6
    ∈ (Variant.handleSubmit randomSettings query dictionary today v).2.
Proof.
  vm_compute. split_and!; try reflexivity.
  - apply list_elem_of_here.
  - apply list_elem_of_further, list_elem_of_here.
Qed.

End sample.

(** ** Decimal keys *)

Lemma to_uint_nonnil n : Nat.to_uint n ≠ Decimal.Nil.
Proof.
  destruct n as [|n]; [discriminate|].
  intros E. pose proof (DecimalNat.Unsigned.of_to (S n)) as Hn.
  rewrite E in Hn. discriminate.
Qed.

Lemma digitsPrefix_uint d : ∀ a : Z,
  (0 ≤ a)%Z →
  digitsPrefix (Some a) (chars (NilEmpty.string_of_uint d))
  = Some (Z.of_nat (Nat.of_uint_acc d (Z.to_nat a))).
Proof.
  induction d as [|d IH|d IH|d IH|d IH|d IH|d IH|d IH|d IH|d IH|d IH]; intros a Ha;
    [simpl; f_equal; lia| ..];
    cbn [NilEmpty.string_of_uint chars list_ascii_of_string digitsPrefix Nat.of_uint_acc];
    (match goal with
     | |- context [digitOf ?c] =>
         let v := eval vm_compute in (digitOf c) in change (digitOf c) with v
     end);
    cbn [default from_option]; unfold id; fold (chars (NilEmpty.string_of_uint d));
    rewrite IH by lia; do 2 f_equal;
    rewrite Nat.tail_mul_spec; f_equal; lia.
Qed.

Lemma parseInt_uint d :
  d ≠ Decimal.Nil →
  parseInt (NilEmpty.string_of_uint d) = Some (Z.of_nat (Nat.of_uint d)).
Proof.
  intros Hd. unfold parseInt, Nat.of_uint.
  destruct d; [done| ..];
    cbn [NilEmpty.string_of_uint chars list_ascii_of_string];
    (match goal with
     | |- context [skipSpaces (?c :: ?l)] =>
         change (skipSpaces (c :: l)) with (c :: l)
     end);
    cbv iota beta;
    cbn [digitsPrefix];
    (match goal with
     | |- context [digitOf ?c] =>
         let v := eval vm_compute in (digitOf c) in change (digitOf c) with v
     end);
    cbn [default from_option]; unfold id;
    (match goal with
     | |- context [list_ascii_of_string (NilEmpty.string_of_uint ?d)] =>
         fold (chars (NilEmpty.string_of_uint d))
     end);
    rewrite digitsPrefix_uint by lia;
    cbn [Nat.of_uint_acc]; do 2 f_equal.
Qed.

Lemma parseInt_decimal n : parseInt (decimal n) = Some (Z.of_nat n).
Proof.
  unfold decimal, NilZero.string_of_uint.
  pose proof (to_uint_nonnil n) as Hn.
  destruct (Nat.to_uint n) eqn:E; [done| ..];
    rewrite <- E in *; rewrite parseInt_uint by done;
    by rewrite DecimalNat.Unsigned.of_to.
Qed.

Lemma decimalZ_of_nat n : decimalZ (Z.of_nat n) = decimal n.
Proof.
  unfold decimalZ. destruct (Z.ltb_spec (Z.of_nat n) 0); [lia|]. by rewrite Nat2Z.id.
Qed.

(** ** Locked letters through JSON *)

Lemma entries_ascending (locked : gmap nat string) :
  StronglySorted key_lt ((λ e, (e.1, VStr e.2)) <$> entries locked).
Proof.
  assert (StronglySorted key_le (entries locked)) as Hs
    by (apply StronglySorted_merge_sort; apply _).
  assert (NoDup (entries locked).*1) as Hd.
  { rewrite entries_perm. apply NoDup_fst_map_to_list. }
  induction Hs as [|e l Hl IH He]; [constructor|].
  rewrite fmap_cons in Hd. apply NoDup_cons in Hd as [Hnotin Hd].
  rewrite fmap_cons. constructor; [by apply IH|].
  apply Forall_fmap, Forall_forall. intros e' He'.
  rewrite Forall_forall in He. specialize (He e' He').
  unfold key_lt, key_le in *. simpl.
  assert (e.1 ≠ e'.1); [|lia].
  intros Heq. apply Hnotin. rewrite Heq. by apply list_elem_of_fmap_2.
Qed.

Lemma setNumeric_append acc k v :
  Forall (λ e, (0 ≤ e.1 < k)%Z) acc → setNumeric acc k v = (acc ++ [(k, v)])%list.
Proof.
  induction 1 as [|[k' w] acc Hk _ IH]; simpl in *; [done|].
  rewrite decide_False by lia. rewrite decide_False by lia. by rewrite IH.
Qed.

Lemma renumber_ascending (l : list (nat * jsval)) :
  StronglySorted key_lt l →
  renumber (VObj ((λ e, (decimal e.1, e.2)) <$> l)) = (λ e, (Z.of_nat e.1, e.2)) <$> l.
Proof.
  unfold renumber. simpl.
  assert (∀ acc : list (Z * jsval),
    StronglySorted key_lt l →
    Forall (λ a, (0 ≤ a.1)%Z ∧ Forall (λ e, (a.1 < Z.of_nat e.1)%Z) l) acc →
    foldl (λ obj e, match parseInt e.1 with
                    | Some numericKey => setNumeric obj numericKey e.2
                    | None => obj
                    end) acc ((λ e, (decimal e.1, e.2)) <$> l)
    = (acc ++ ((λ e, (Z.of_nat e.1, e.2)) <$> l))%list) as Hgen.
  { induction l as [|e l IH]; intros acc Hs Hacc; simpl; [by rewrite app_nil_r|].
    apply StronglySorted_inv in Hs as [Hs He].
    rewrite parseInt_decimal, setNumeric_append.
    - rewrite IH; [by rewrite <- app_assoc | done |].
      apply Forall_app. split.
      + eapply Forall_impl; [done|]. simpl. intros a [Ha Hl].
        split; [done|]. by apply Forall_inv_tail in Hl.
      + constructor; [|done]. simpl. split; [lia|].
        eapply Forall_impl; [done|]. unfold key_lt. simpl. lia.
    - eapply Forall_impl; [done|]. simpl. intros a [Ha Hl].
      apply Forall_inv in Hl. lia. }
  intros Hs. by rewrite Hgen.
Qed.

Lemma numericObject_of_nat (l : list (nat * jsval)) :
  numericObject ((λ e, (Z.of_nat e.1, e.2)) <$> l) = VObj ((λ e, (decimal e.1, e.2)) <$> l).
Proof.
  unfold numericObject. f_equal. rewrite <- list_fmap_compose.
  apply list_fmap_ext. intros _ [n v] _. simpl. by rewrite decimalZ_of_nat.
Qed.

(** Making the keys numbers again gives the same object, for an object whose
    keys are indices in ascending order. *)
Lemma renumber_same (l : list (nat * jsval)) :
  StronglySorted key_lt l →
  numericObject (renumber (VObj ((λ e, (decimal e.1, e.2)) <$> l)))
  = VObj ((λ e, (decimal e.1, e.2)) <$> l).
Proof. intros Hs. by rewrite renumber_ascending, numericObject_of_nat. Qed.

Lemma lockedObject_alt locked :
  lockedObject locked
  = VObj ((λ e : nat * jsval, (decimal e.1, e.2)) <$> ((λ e, (e.1, VStr e.2)) <$> entries locked)).
Proof. unfold lockedObject. by rewrite <- list_fmap_compose. Qed.

Lemma renumber_lockedObject locked :
  numericObject (renumber (lockedObject locked)) = lockedObject locked.
Proof. rewrite lockedObject_alt. apply renumber_same, entries_ascending. Qed.

Lemma toJSON_VObj fields : toJSON (VObj fields) = VObj (fieldsToJSON fields).
Proof. reflexivity. Qed.

Lemma toJSON_VArr items : toJSON (VArr items) = VArr (itemsToJSON items).
Proof. reflexivity. Qed.

Lemma fieldsToJSON_cons k v l :
  fieldsToJSON ((k, v) :: l)
  = match v with
    | VUndefined => fieldsToJSON l
    | _ => (k, toJSON v) :: fieldsToJSON l
    end.
Proof. by destruct v. Qed.

Lemma fieldsToJSON_app l1 l2 :
  fieldsToJSON (l1 ++ l2) = (fieldsToJSON l1 ++ fieldsToJSON l2)%list.
Proof.
  induction l1 as [|[k v] l1 IH]; [done|].
  rewrite <- app_comm_cons, !fieldsToJSON_cons, IH. by destruct v.
Qed.

Lemma itemsToJSON_strings cells : itemsToJSON (VStr <$> cells) = VStr <$> cells.
Proof.
  induction cells as [|s l IH]; [done|].
  rewrite fmap_cons. change (itemsToJSON (VStr s :: (VStr <$> l)))
    with (VStr s :: itemsToJSON (VStr <$> l)). by rewrite IH.
Qed.

Lemma toJSON_lockedObject locked : toJSON (lockedObject locked) = lockedObject locked.
Proof.
  unfold lockedObject. rewrite toJSON_VObj. f_equal.
  induction (entries locked) as [|e l IH]; [done|].
  rewrite fmap_cons, fieldsToJSON_cons, IH. done.
Qed.

Lemma toJSON_guessArray cells : toJSON (guessArray cells) = guessArray cells.
Proof. unfold guessArray. by rewrite toJSON_VArr, itemsToJSON_strings. Qed.

Lemma toJSON_solutionObject n secret :
  toJSON (solutionObject n (VStr secret)) = solvedObject n secret.
Proof.
  unfold solutionObject, solvedObject. rewrite toJSON_VObj. f_equal.
  induction (seq 0 n) as [|i l IH]; [done|].
  rewrite fmap_cons, fieldsToJSON_cons, IH. cbn [omap list_omap].
  change (getIndex (VStr secret) i)
    with (from_option (λ c, VStr (letter c)) VUndefined (charAt secret i)).
  destruct (charAt secret i); done.
Qed.

Lemma solvedObject_alt n secret :
  solvedObject n secret
  = VObj ((λ e : nat * jsval, (decimal e.1, e.2))
            <$> omap (λ i, (λ c, (i, VStr (letter c))) <$> charAt secret i) (seq 0 n)).
Proof.
  unfold solvedObject. f_equal.
  induction (seq 0 n) as [|i l IH]; [done|].
  cbn [omap list_omap]. destruct (charAt secret i); cbn; by rewrite IH.
Qed.

Lemma solved_ascending n secret :
  StronglySorted key_lt
    (omap (λ i, (λ c, (i, VStr (letter c))) <$> charAt secret i) (seq 0 n)).
Proof.
  generalize 0 as start. induction n as [|n IH]; intros start; simpl; [constructor|].
  destruct (charAt secret start) as [c|]; simpl; [|apply IH].
  constructor; [apply IH|].
  apply Forall_forall. intros e He. apply list_elem_of_omap in He as (i & Hi & He).
  apply elem_of_seq in Hi. destruct (charAt secret i); simplify_eq/=.
  unfold key_lt. simpl. lia.
Qed.

Lemma renumber_solvedObject n secret :
  numericObject (renumber (solvedObject n secret)) = solvedObject n secret.
Proof. rewrite solvedObject_alt. apply renumber_same, solved_ascending. Qed.

(** ** Saving and restoring the puzzle state *)

Lemma setField_fresh fields key v :
  lookupField fields key = None → setField fields key v = (fields ++ [(key, v)])%list.
Proof.
  induction fields as [|[k w] fields IH]; simpl; [done|].
  case_decide; [done|]. intros Hl. by rewrite IH.
Qed.

Lemma lookupField_setField fields key v key' :
  lookupField (setField fields key v) key'
  = if decide (key' = key) then Some v else lookupField fields key'.
Proof.
  induction fields as [|[k w] fields IH]; simpl.
  - repeat case_decide; congruence.
  - repeat (case_decide; simpl); try congruence.
Qed.

Lemma getProp_VObj fields key :
  getProp (VObj fields) key = Normal (default VUndefined (lookupField fields key)).
Proof. reflexivity. Qed.

Lemma bind_lift {A B} (a : A) (k : A → Block B) : (lift (Normal a) ≫= k) = k a.
Proof. unfold mbind, Block_bind, lift. simpl. by destruct (k a). Qed.

(** Runs the straight-line part of a block. *)
Ltac run_block :=
  unfold tryCatch, mbind, Block_bind, mret, Block_ret, lift, act;
  cbn [fst snd default from_option isString]; unfold id; cbn [isString].

Lemma snapshot_lookup gs locked today row :
  let fields := snapshot gs locked today row in
  lookupField fields "date" = Some (VStr today)
  ∧ lookupField fields "revealedLetters" = Some (VObj [])
  ∧ lookupField fields "currentGuess" = Some (guessArray row)
  ∧ lookupField fields "wordLength" = Some (VNum (Z.of_nat (wordLength gs)))
  ∧ lookupField fields "lockedLetters" = Some locked
  ∧ lookupField fields "gameStatus" = Some (VStr (statusName (gameStatus gs)))
  ∧ lookupField fields "secretWord" = Some (VStr (secretWord gs))
  ∧ lookupField fields "attempts" = Some (guessArray (attempts gs))
  ∧ lookupField fields "attemptIndex" = Some (VNum (attemptIndex gs))
  ∧ lookupField fields "letterRevealsRemaining" = Some (VNum (letterRevealsRemaining gs)).
Proof. unfold snapshot. destruct (clue gs); split_and!; reflexivity. Qed.

(** The text that the save effect of Game.tsx writes. *)
Lemma Game_saved_text gs today row :
  toJSON (VObj (setField (setField (stateObject gs) "date" (VStr today))
                         "currentGuess" (guessArray row)))
  = VObj (snapshot gs (lockedObject (lockedLetters gs)) today row).
Proof.
  rewrite (setField_fresh (stateObject gs)) by reflexivity.
  rewrite setField_fresh by reflexivity.
  unfold stateObject, snapshot. cbn [app].
  rewrite toJSON_VObj. rewrite !fieldsToJSON_cons.
  rewrite toJSON_lockedObject, !toJSON_guessArray.
  destruct (clue gs); reflexivity.
Qed.

Lemma Variant_saved_text gs today row :
  truthy (secretWord gs) = true →
  toJSON (VObj (setField
                  (setField
                     (setField (stateObject gs) "lockedLetters"
                        (if bool_decide (gameStatus gs = won) && truthy (secretWord gs)
                         then solutionObject (wordLength gs) (VStr (secretWord gs))
                         else numericObject (renumber (lockedObject (lockedLetters gs)))))
                     "date" (VStr today))
                  "currentGuess" (guessArray row)))
  = VObj (snapshot gs (savedLocked gs) today row).
Proof.
  intros Ht. rewrite Ht, andb_true_r, renumber_lockedObject.
  set (final := if bool_decide (gameStatus gs = won) then _ else _).
  assert (toJSON final = savedLocked gs) as Hfinal.
  { subst final. unfold savedLocked. case_bool_decide.
    - rewrite decide_True by done. apply toJSON_solutionObject.
    - rewrite decide_False by done. apply toJSON_lockedObject. }
  change (setField (stateObject gs) "lockedLetters" final)
    with [ ("wordLength", VNum (Z.of_nat (wordLength gs)));
           ("secretWord", VStr (secretWord gs));
           ("clue", from_option VStr VUndefined (clue gs));
           ("attempts", guessArray (attempts gs));
           ("lockedLetters", final);
           ("gameStatus", VStr (statusName (gameStatus gs)));
           ("attemptIndex", VNum (attemptIndex gs));
           ("revealedLetters",
            VSet ((λ i, VNum (Z.of_nat i)) <$> elements (revealedLetters gs)));
           ("letterRevealsRemaining", VNum (letterRevealsRemaining gs)) ].
  assert (∃ fields, final = VObj fields) as [fields Hfields].
  { subst final. case_bool_decide; eexists; reflexivity. }
  clearbody final. subst final.
  rewrite !setField_fresh by reflexivity.
  unfold snapshot. cbn [app].
  rewrite toJSON_VObj. rewrite !fieldsToJSON_cons.
  rewrite Hfinal, !toJSON_guessArray.
  destruct (clue gs); reflexivity.
Qed.

(** What the restore effect of Game.tsx makes of a snapshot of today. *)
Lemma Game_restore_snapshot gs locked today row settings query (storage : Storage) :
  randomPuzzle settings = false → isArchivePuzzle query = false →
  storage !! puzzleStateKey = Some (JsonText (VObj (snapshot gs locked today row))) →
  Game.restorePuzzleState settings query today storage
  = ([SetGameState
        (VObj (setField (snapshot gs locked today row) "revealedLetters" (VSet [])));
      SetCurrentGuess (guessArray row)], Normal tt).
Proof.
  intros Hr Ha Hs. unfold Game.restorePuzzleState. rewrite Hs, Hr, Ha.
  destruct (snapshot_lookup gs locked today row) as (Hdate & Hrev & Hcg & Hwl & _).
  cbn [textTruthy negb andb JSON_parse].
  rewrite bind_lift; cbv beta.
  rewrite !getProp_VObj, Hdate, Hrev, Hcg, Hwl.
  run_block. rewrite bool_decide_eq_true_2 by done.
  reflexivity.
Qed.

(** Restoring gives back the locked letters that were saved. *)
Lemma restoredLockedLetters_saved gs :
  truthy (secretWord gs) = true →
  Variant.restoredLockedLetters (savedLocked gs) (VStr (statusName (gameStatus gs)))
    (VStr (secretWord gs)) (VNum (Z.of_nat (wordLength gs)))
  = savedLocked gs.
Proof.
  intros Ht. unfold Variant.restoredLockedLetters, savedLocked.
  destruct (decide (gameStatus gs = won)) as [Hw|Hw].
  - cbn [jsTruthy andb]. case_bool_decide as Hlen.
    + apply renumber_solvedObject.
    + rewrite Hw. cbn [statusName isString jsTruthy]. rewrite Ht.
      rewrite bool_decide_eq_true_2 by done. cbn [andb toLength].
      rewrite Nat2Z.id.
      unfold solvedObject, Object_entries in Hlen.
      destruct (wordLength gs) as [|n]; [done|].
      exfalso. apply Hlen. cbn [seq omap list_omap].
      destruct (secretWord gs) as [|c s]; [done|]. simpl. lia.
  - cbn [jsTruthy andb]. case_bool_decide as Hlen.
    + apply renumber_lockedObject.
    + assert (isString (VStr (statusName (gameStatus gs))) "won" = false) as ->.
      { destruct (gameStatus gs); done. }
      cbn [andb]. unfold lockedObject, Object_entries in *.
      destruct (entries (lockedLetters gs)); [done|]. simpl in Hlen. lia.
Qed.

(** What the restore effect of the variant makes of a snapshot of today that
    its save effect wrote. *)
Lemma Variant_restore_snapshot gs today row settings query (storage : Storage) :
  truthy (secretWord gs) = true →
  randomPuzzle settings = false → isArchivePuzzle query = false →
  storage !! puzzleStateKey
    = Some (JsonText (VObj (snapshot gs (savedLocked gs) today row))) →
  ∃ actions,
    Variant.restorePuzzleState false settings query today storage
    = (SetGameState
         (VObj (setField
                  (setField (snapshot gs (savedLocked gs) today row)
                            "revealedLetters" (VSet []))
                  "lockedLetters" (savedLocked gs)))
       :: actions, Normal tt).
Proof.
  intros Ht Hr Ha Hs. unfold Variant.restorePuzzleState. rewrite Hs, Hr, Ha.
  destruct (snapshot_lookup gs (savedLocked gs) today row)
    as (Hdate & Hrev & Hcg & Hwl & Hlock & Hstatus & Hsecret & _).
  cbn [textTruthy negb andb JSON_parse].
  rewrite bind_lift; cbv beta.
  rewrite !getProp_VObj, Hdate, Hrev, Hcg, Hwl, Hlock, Hstatus, Hsecret.
  run_block. rewrite bool_decide_eq_true_2 by done.
  rewrite restoredLockedLetters_saved by done.
  destruct (bool_decide (statusName (gameStatus gs) = "won")); eexists; reflexivity.
Qed.

Lemma tryCatch_completes body handler :
  (∀ e, (handler e).2 = Normal tt) → (tryCatch body handler).2 = Normal tt.
Proof.
  intros Hh. unfold tryCatch. destruct body as [actions [[]|e]]; simpl; [done|]. apply Hh.
Qed.



Lemma Game_clearStale_completes query today (storage : Storage) :
  (Game.clearStalePuzzleState query today storage).2 = Normal tt.
Proof.
  unfold Game.clearStalePuzzleState. destruct (negb _); [|done].
  destruct (storage !! puzzleStateKey); [|done].
  destruct (textTruthy _); [|done]. by apply tryCatch_completes.
Qed.

Section restore.
Variables (settings : GameSettings) (query : RouterQuery) (today : string).
Variables (storage : Storage) (text : StoredText).
Hypothesis stored : storage !! puzzleStateKey = Some text.
Hypothesis daily : randomPuzzle settings = false.
Hypothesis notArchive : isArchivePuzzle query = false.




End restore.

(** C6 (as the code has it). A game state saved on a given day (a daily
    game, with a secret word) and restored on the same day has the same
    attempts and the same status.  In Game.tsx it also has the same locked
    letters.  In the variant, which makes the keys of the locked letters
    numbers again on saving and on restoring, it has the same locked letters
    unless the game is won: a won game is saved, and so restored, with the
    whole solution locked.  In both, the set of revealed positions comes back
    empty. *)
Theorem save_then_restore (gs : GameState) (row : list string)
  (settings : GameSettings) (query : RouterQuery) (today : string) (storage : Storage) :
  truthy (secretWord gs) = true →
  randomPuzzle settings = false →
  isArchivePuzzle query = false →
  (let storage' :=
     performAll storage (Game.savePuzzleState settings query today gs row).1 in
   ∃ restored,
     Game.restorePuzzleState settings query today storage'
     = ([SetGameState restored; SetCurrentGuess (guessArray row)], Normal tt)
     ∧ getProp restored "attempts" = Normal (guessArray (attempts gs))
     ∧ getProp restored "gameStatus" = Normal (VStr (statusName (gameStatus gs)))
     ∧ getProp restored "lockedLetters" = Normal (lockedObject (lockedLetters gs))
     ∧ getProp restored "revealedLetters" = Normal (VSet []))
  ∧
  (let storage' :=
     performAll storage (Variant.savePuzzleState settings query today gs row).1 in
   ∃ restored actions,
     Variant.restorePuzzleState false settings query today storage'
     = (SetGameState restored :: actions, Normal tt)
     ∧ getProp restored "attempts" = Normal (guessArray (attempts gs))
     ∧ getProp restored "gameStatus" = Normal (VStr (statusName (gameStatus gs)))
     ∧ getProp restored "lockedLetters"
       = Normal (if decide (gameStatus gs = won)
                 then solvedObject (wordLength gs) (secretWord gs)
                 else lockedObject (lockedLetters gs))
     ∧ getProp restored "revealedLetters" = Normal (VSet [])).
Proof.
  intros Ht Hr Ha. split.
  - intros storage'. subst storage'.
    unfold Game.savePuzzleState. rewrite Ht, Hr, Ha. cbn [negb andb act fst].
    unfold performAll. cbn [foldl perform]. rewrite Game_saved_text.
    eexists. split.
    + apply Game_restore_snapshot; [done|done|]. apply lookup_insert_eq.
    + destruct (snapshot_lookup gs (lockedObject (lockedLetters gs)) today row)
        as (_ & _ & _ & _ & Hl & Hs & _ & Hat & _).
      rewrite !getProp_VObj, !lookupField_setField.
      rewrite !decide_False by discriminate. rewrite decide_True by done.
      rewrite Hat, Hs, Hl. done.
  - intros storage'. subst storage'.
    pose proof (Variant_saved_text gs today row Ht) as Hsaved.
    unfold Variant.savePuzzleState. rewrite Hr, Ha. rewrite Ht in Hsaved |- *.
    cbn [negb andb act fst].
    unfold performAll. cbn [foldl perform]. rewrite Hsaved.
    destruct (Variant_restore_snapshot gs today row settings query
                (<[puzzleStateKey := JsonText (VObj (snapshot gs (savedLocked gs) today row))]>
                   storage)) as [actions Hrestore];
      [done | done | done | apply lookup_insert_eq |].
    eexists _, actions. split; [exact Hrestore|].
    destruct (snapshot_lookup gs (savedLocked gs) today row)
      as (_ & _ & _ & _ & Hl & Hs & _ & Hat & _).
    rewrite !getProp_VObj, !lookupField_setField.
    rewrite !decide_False by discriminate. rewrite !decide_True by done.
    rewrite Hat, Hs. done.
Qed.


Section persisted.
Import Sample.
Existing Instance Sample.config.

(** C6, the claim as stated fails.  The variant saves the game right after
    the winning guess, before any letter is locked, with the whole solution
    locked; the restored game has five locked letters where the saved one had
    none. *)
Lemma won_game_is_restored_with_the_solution_locked :
  let justWon :=
    Variant.gameState
      (Variant.handleSubmit settings query dictionary today
         (variantComponent fresh ["C"; "R"; "A"; "N"; "E"])).1 in
  let storage' :=
    performAll ∅ (Variant.savePuzzleState settings query today justWon []).1 in
  gameStatus justWon = won
  ∧ lockedLetters justWon = ∅
  ∧ lockedObject (lockedLetters justWon) = VObj []
  ∧ ∃ restored actions,
      Variant.restorePuzzleState false settings query today storage'
      = (SetGameState restored :: actions, Normal tt)
      ∧ getProp restored "lockedLetters"
        = Normal (VObj [("0", VStr "C"); ("1", VStr "R"); ("2", VStr "A");
                        ("3", VStr "N"); ("4", VStr "E")])
      ∧ getProp restored "lockedLetters" ≠ Normal (lockedObject (lockedLetters justWon)).
Proof.
  split_and!; try (vm_compute; reflexivity).
  eexists _, _. split_and!.
  - vm_compute. reflexivity.
  - vm_compute. reflexivity.
  - vm_compute. discriminate.
Qed.

Lemma save_then_restore_witness :
  truthy (secretWord fifth) = true
  ∧ randomPuzzle settings = false
  ∧ isArchivePuzzle query = false
  ∧ ∃ restored,
      Game.restorePuzzleState settings query today
        (performAll ∅ (Game.savePuzzleState settings query today fifth ["S"; "L"]).1)
      = ([SetGameState restored; SetCurrentGuess (guessArray ["S"; "L"])], Normal tt)
      ∧ getProp restored "lockedLetters" = Normal (VObj [("2", VStr "A")]).
Proof.
  split; [reflexivity|]. split; [reflexivity|]. split; [reflexivity|].
  destruct (save_then_restore fifth ["S"; "L"] settings query today ∅)
    as [(restored & Hrestore & _ & _ & Hlocked & _) _]; try reflexivity.
  exists restored. split; [exact Hrestore|]. exact Hlocked.
Defined.



End persisted.

(** ** Loading the daily puzzle *)

Lemma find_no_match {A} (f : A → bool) (l : list A) :
  (∀ x, x ∈ l → f x = false) → List.find f l = None.
Proof.
  induction l as [|x l IH]; intros Hf; simpl; [done|].
  rewrite (Hf x) by apply list_elem_of_here.
  apply IH. intros y Hy. apply Hf. by apply list_elem_of_further.
Qed.

(** C10. [loadDailyPuzzle] never rejects: whatever the server answers, the
    promise is fulfilled.  When the [try] block throws (a failed request, a
    response that is not ok, a body that does not parse, an empty list of
    puzzles, for the puzzles or for the clues) it is fulfilled with the
    default puzzle HELLO / "A friendly greeting" / not today's.  When the list
    of puzzles has no entry for today's date but is not empty, and the clues
    load, it is fulfilled with the first puzzle of the list, marked as not
    today's. *)
Theorem loadDailyPuzzle_never_rejects (randomMode : bool) (today todayEST : string)
  (fetchPuzzles : bool → Daily.Fetched (list Daily.PuzzleData))
  (fetchClues : string → Daily.Fetched Daily.CluesData) :
  let load := Daily.loadDailyPuzzle randomMode today todayEST fetchPuzzles fetchClues in
  (∃ puzzle, load = Normal puzzle)
  ∧ (∀ e, Daily.loadDailyPuzzle_try randomMode today todayEST fetchPuzzles fetchClues = Throw e →
          load = Normal Daily.defaultPuzzle)
  ∧ Daily.defaultPuzzle
    = {| Daily.word := "HELLO"; Daily.clue := "A friendly greeting"; Daily.isToday := false |}
  ∧ (∀ e, Daily.jsonOf (fetchPuzzles randomMode) "Failed to load puzzle data" = Throw e →
          load = Normal Daily.defaultPuzzle)
  ∧ (fetchPuzzles randomMode = Daily.Response true (Normal []) →
     load = Normal Daily.defaultPuzzle)
  ∧ (∀ first rest e,
       randomMode = false →
       fetchPuzzles false = Daily.Response true (Normal (first :: rest)) →
       (∀ p, p ∈ first :: rest → Daily.puzzle_date p ≠ today) →
       Daily.jsonOf (fetchClues (Daily.yearOf (Daily.puzzle_date first)))
         "Failed to load clues data" = Throw e →
       load = Normal Daily.defaultPuzzle)
  ∧ (∀ first rest clues,
       randomMode = false → todayEST = today →
       fetchPuzzles false = Daily.Response true (Normal (first :: rest)) →
       (∀ p, p ∈ first :: rest → Daily.puzzle_date p ≠ today) →
       fetchClues (Daily.yearOf (Daily.puzzle_date first)) = Daily.Response true (Normal clues) →
       load = Normal {| Daily.word := toUpperCase (Daily.puzzle_word first);
                        Daily.clue := Daily.findClue clues (Daily.puzzle_word first);
                        Daily.isToday := false |}).
Proof.
  intros load. subst load. unfold Daily.loadDailyPuzzle. split_and!.
  - destruct (Daily.loadDailyPuzzle_try _ _ _ _ _); eauto.
  - by intros e ->.
  - done.
  - intros e He. unfold Daily.loadDailyPuzzle_try. by rewrite He.
  - intros He. unfold Daily.loadDailyPuzzle_try. rewrite He. simpl.
    by destruct randomMode.
  - intros first rest e -> Hf Hnone He. unfold Daily.loadDailyPuzzle_try.
    rewrite Hf. cbn [Daily.jsonOf Daily.andThen].
    rewrite find_no_match.
    + rewrite decide_True by (simpl; lia). cbn [head]. by rewrite He.
    + intros p Hp. apply bool_decide_eq_false. by apply Hnone.
  - intros first rest clues -> -> Hf Hnone Hc. unfold Daily.loadDailyPuzzle_try.
    rewrite Hf. cbn [Daily.jsonOf Daily.andThen].
    rewrite find_no_match.
    + rewrite decide_True by (simpl; lia). cbn [head]. rewrite Hc.
      cbn [Daily.jsonOf Daily.andThen negb andb].
      rewrite bool_decide_eq_false_2; [done|]. apply Hnone, list_elem_of_here.
    + intros p Hp. apply bool_decide_eq_false. by apply Hnone.
Qed.

Section daily.
Import Daily Sample.

Lemma loadDailyPuzzle_never_rejects_witness :
  loadDailyPuzzle false "2025-09-01" "2025-09-01" serverPuzzles serverClues
  = Normal {| word := "GRACE"; clue := "Unearned favour"; isToday := false |}.
Proof.
  destruct (loadDailyPuzzle_never_rejects false "2025-09-01" "2025-09-01"
              serverPuzzles serverClues) as (_ & _ & _ & _ & _ & _ & Hfirst).
  apply (Hfirst {| puzzle_date := "2025-08-30"; puzzle_word := "grace" |}
                [ {| puzzle_date := "2025-08-31"; puzzle_word := "faith" |} ]
                cluesOf2025); try reflexivity.
  intros p Hp. apply elem_of_cons in Hp as [-> | Hp]; [discriminate|].
  apply list_elem_of_singleton in Hp as ->. discriminate.
Defined.

Example loadDailyPuzzle_offline :
  loadDailyPuzzle false "2025-09-01" "2025-09-01"
    (λ _, NetworkFailure (Error "Failed to fetch")) serverClues
  = Normal defaultPuzzle.
Proof. reflexivity. Qed.

End daily.
